(** * Content-synthesis orchestration and response reconciliation

    A shallow embedding of the request compiler, the response parser, the
    provenance resolver, the supplemental-content resubmission and the
    citation formatter of the teaching application
    ([services/geminiService], [App.tsx], [components/ChatSection.tsx]),
    followed by the properties established about them.

    Conventions of the embedding.
    - A JavaScript string is a [string]: a sequence of code units, taken
      here in the range 0..255.
    - A value that may be [undefined] is an [option].
    - A function that may throw returns a [completion]: [Returned v] or
      [Threw e].
    - A regular expression literal is translated construct by construct
      into backtracking matchers written in continuation-passing style, so
      that greedy and lazy quantifiers try their alternatives in the order
      the engine does. *)

From Stdlib Require Import Bool Arith NArith ZArith List Ascii String Lia.
From Stdlib Require Import DecimalString.
Import ListNotations.
Open Scope string_scope.

Set Implicit Arguments.

(* ================================================================== *)
(** * Part I. The embedding *)
(* ================================================================== *)

(** ** JavaScript strings *)

Module Js.

(** [s.substring(n)] for [n] within bounds: the text after the first [n]
    code units. *)
Fixpoint drop (n : nat) (s : string) : string :=
  match n, s with
  | O, _ => s
  | S _, EmptyString => EmptyString
  | S n', String _ t => drop n' t
  end.

(** [s.startsWith(l)]. *)
Fixpoint startsWith (l s : string) : bool :=
  match l with
  | EmptyString => true
  | String a l' =>
      match s with
      | EmptyString => false
      | String b s' => (a =? b)%char && startsWith l' s'
      end
  end.

(** [hay.includes(needle)]. *)
Fixpoint includes (needle hay : string) : bool :=
  startsWith needle hay ||
  match hay with
  | EmptyString => false
  | String _ t => includes needle t
  end.

(** Truthiness of a string: every string but the empty one. *)
Definition truthy (s : string) : bool :=
  match s with EmptyString => false | String _ _ => true end.

(** The one-character strings holding the double quote and the line
    feed. *)
Definition dquote : string := String (ascii_of_nat 34) EmptyString.

Definition nl : string := String (ascii_of_nat 10) EmptyString.

(** Truthiness of a possibly undefined string. *)
Definition truthy_opt (o : option string) : bool :=
  match o with None => false | Some s => truthy s end.

Definition code (c : ascii) : nat := nat_of_ascii c.

(** The class [\s] (WhiteSpace and LineTerminator) below code unit 256:
    TAB, LF, VT, FF, CR, SPACE and NO-BREAK SPACE. *)
Definition isSpace (c : ascii) : bool :=
  let n := code c in
  (((9 <=? n) && (n <=? 13)) || (n =? 32) || (n =? 160))%nat.

(** The class [\S]. *)
Definition isNonSpace (c : ascii) : bool := negb (isSpace c).

(** The class [\d]. *)
Definition isDigit (c : ascii) : bool :=
  let n := code c in ((48 <=? n) && (n <=? 57))%nat.

(** The class [\w]: ASCII letters, digits and the underscore. *)
Definition isWord (c : ascii) : bool :=
  let n := code c in
  (((65 <=? n) && (n <=? 90)) || ((97 <=? n) && (n <=? 122)) ||
   ((48 <=? n) && (n <=? 57)) || (n =? 95))%nat.

(** The class [[\s\S]]: any code unit. *)
Definition isAny (_ : ascii) : bool := true.

(** The longest prefix of code units of a class, what follows it, and
    whether a string is made of code units of the class only. *)
Fixpoint takeWhile (p : ascii -> bool) (s : string) : string :=
  match s with
  | EmptyString => EmptyString
  | String c t => if p c then String c (takeWhile p t) else EmptyString
  end.

Fixpoint dropWhile (p : ascii -> bool) (s : string) : string :=
  match s with
  | EmptyString => EmptyString
  | String c t => if p c then dropWhile p t else s
  end.

Fixpoint allOf (p : ascii -> bool) (s : string) : bool :=
  match s with
  | EmptyString => true
  | String c t => p c && allOf p t
  end.

(** [s.trim()]: leading and trailing white space removed. *)
Definition trimStart (s : string) : string := dropWhile isSpace s.

(** The text without its longest suffix of code units of a class. *)
Fixpoint dropEnd (p : ascii -> bool) (s : string) : string :=
  match s with
  | EmptyString => EmptyString
  | String c t =>
      match dropEnd p t with
      | EmptyString => if p c then EmptyString else String c EmptyString
      | t' => String c t'
      end
  end.

Definition trimEnd (s : string) : string := dropEnd isSpace s.

Definition trim (s : string) : string := trimEnd (trimStart s).

(** [parseInt(s, 10)] on a string of decimal digits. The value is a
    double in JavaScript; it is only ever compared with an array length
    and printed when it does not exceed that length, and on that range
    the double is the exact integer. *)
Definition digitValue (c : ascii) : N := N.of_nat (code c - 48).

Fixpoint parseDigits (acc : N) (s : string) : N :=
  match s with
  | EmptyString => acc
  | String c t => parseDigits (acc * 10 + digitValue c) t
  end.

Definition parseInt (s : string) : N := parseDigits 0 s.

(** [`${n}`] for a non-negative integer. *)
Definition numberToString (n : N) : string :=
  NilZero.string_of_uint (N.to_uint n).

Definition natToString (n : nat) : string :=
  NilZero.string_of_uint (Nat.to_uint n).

(** [arr.push(x)] and a [push] of every element of [more] in turn. *)
Definition push (A : Type) (arr : list A) (x : A) : list A :=
  (arr ++ [x])%list.

Definition pushAll (A : Type) (arr more : list A) : list A :=
  (arr ++ more)%list.

(** [parts.join(sep)]. *)
Definition join (sep : string) (parts : list string) : string :=
  String.concat sep parts.

(** Whether the code unit [c] does not occur in [s]. *)
Definition lacks (c : ascii) (s : string) : bool :=
  allOf (fun x => negb (x =? c)%char) s.

(** Whether a property key is an array index: the decimal notation,
    without leading zeros, of an integer from 0 to 2^32 - 2. An object
    lists its keys of this kind first, in ascending order, and its other
    keys behind them, in the order in which they were created. *)
Definition isArrayIndex (key : string) : bool :=
  match key with
  | EmptyString => false
  | String c rest =>
      allOf isDigit key &&
      (negb (c =? "0")%char || negb (truthy rest)) &&
      (parseInt key <=? 4294967294)%N
  end.

(** The outcome of a call that may throw. *)
Inductive completion (E A : Type) : Type :=
| Returned (v : A)
| Threw (e : E).

Arguments Returned {E A} v.
Arguments Threw {E A} e.

End Js.

(** ** Regular expressions as backtracking matchers *)

Module Re.

Section Matchers.
Variable R : Type.

(** A literal: succeeds when the input starts with [l] and hands the
    rest of the input to the continuation. *)
Definition lit (l : string) (s : string) (k : string -> option R)
  : option R :=
  if Js.startsWith l s then k (Js.drop (String.length l) s) else None.

(** One code unit of a class. *)
Definition one (p : ascii -> bool) (s : string)
    (k : ascii -> string -> option R) : option R :=
  match s with
  | String c t => if p c then k c t else None
  | EmptyString => None
  end.

(** [p*], greedy: the longest run is tried first, then shorter ones.
    The continuation receives the text consumed and the rest. *)
Fixpoint star_greedy (p : ascii -> bool) (s : string)
    (k : string -> string -> option R) : option R :=
  match s with
  | String c t =>
      if p c then
        match star_greedy p t (fun m rest => k (String c m) rest) with
        | Some r => Some r
        | None => k EmptyString s
        end
      else k EmptyString s
  | EmptyString => k EmptyString EmptyString
  end.

(** [p*?], lazy: the shortest run is tried first, then longer ones. *)
Fixpoint star_lazy (p : ascii -> bool) (s : string)
    (k : string -> string -> option R) : option R :=
  match k EmptyString s with
  | Some r => Some r
  | None =>
      match s with
      | String c t =>
          if p c then star_lazy p t (fun m rest => k (String c m) rest)
          else None
      | EmptyString => None
      end
  end.

(** [p+], greedy. *)
Definition plus_greedy (p : ascii -> bool) (s : string)
    (k : string -> string -> option R) : option R :=
  one p s (fun c t => star_greedy p t (fun m rest => k (String c m) rest)).

(** [(l)?], greedy: with the literal first, without it second. *)
Definition opt_lit (l : string) (s : string) (k : string -> option R)
  : option R :=
  match lit l s k with
  | Some r => Some r
  | None => k s
  end.

(** [a|b]: the left alternative first. *)
Definition alt (a b : option R) : option R :=
  match a with Some r => Some r | None => b end.

(** The position of the leftmost match: the matcher is tried at the
    start of the input and then one code unit further at a time. The
    matcher is given the code unit before the position, for [\b]. The
    result carries the text skipped before the match. *)
Fixpoint search_from (m : option ascii -> string -> option R)
    (prev : option ascii) (s : string) : option (string * R) :=
  match m prev s with
  | Some r => Some (EmptyString, r)
  | None =>
      match s with
      | EmptyString => None
      | String c t =>
          match search_from m (Some c) t with
          | Some (skipped, r) => Some (String c skipped, r)
          | None => None
          end
      end
  end.

Definition search (m : option ascii -> string -> option R) (s : string)
  : option (string * R) :=
  search_from m None s.

End Matchers.

(** A scan with the [g] flag cuts the input into code units that belong
    to no match and matches. *)
Inductive token (X : Type) : Type :=
| Lit (c : ascii)
| Hit (x : X).

Arguments Lit {X} c.
Arguments Hit {X} x.

(** All matches from left to right, without overlap: after a match of
    [len] code units the scan resumes right behind it ([skip] counts the
    code units of the current match still to pass). A matcher returns
    the length of the matched text and what it captured. An empty match
    moves on by one code unit. *)
Fixpoint scan_from (X : Type) (m : option ascii -> string -> option (nat * X))
    (prev : option ascii) (skip : nat) (s : string) : list (token X) :=
  match s with
  | EmptyString =>
      match m prev EmptyString with
      | Some (_, x) => [Hit x]
      | None => []
      end
  | String c t =>
      match skip with
      | S n => scan_from m (Some c) n t
      | O =>
          match m prev s with
          | Some (O, x) => Hit x :: Lit c :: scan_from m (Some c) 0 t
          | Some (S n, x) => Hit x :: scan_from m (Some c) n t
          | None => Lit c :: scan_from m (Some c) 0 t
          end
      end
  end.

Definition scan (X : Type) (m : option ascii -> string -> option (nat * X))
    (s : string) : list (token X) :=
  scan_from m None 0 s.

(** [s.match(re)] with the [g] flag: the matches, in order. *)
Fixpoint hits (X : Type) (ts : list (token X)) : list X :=
  match ts with
  | [] => []
  | Lit _ :: r => hits r
  | Hit x :: r => x :: hits r
  end.

(** [s.replace(re, callback)] with the [g] flag, for a callback that may
    throw ([None]): the text outside the matches is kept, each match is
    replaced by what the callback returns for it. *)
Fixpoint replaceWith (X : Type) (f : X -> option string)
    (ts : list (token X)) : option string :=
  match ts with
  | [] => Some EmptyString
  | Lit c :: r =>
      match replaceWith f r with
      | Some out => Some (String c out)
      | None => None
      end
  | Hit x :: r =>
      match f x, replaceWith f r with
      | Some y, Some out => Some (y ++ out)
      | _, _ => None
      end
  end.

End Re.

(** ** Shared types ([types.ts]) *)

Record GroundingSource : Type := mkSource {
  uri : string;
  title : string
}.

(** ** The citation formatter ([components/ChatSection.tsx]) *)

Module ChatSection.

(** The expression [/\[(\d+)\]/]: the match is an opening bracket, the
    digits of group 1 and a closing bracket. *)
Definition citationRe (_ : option ascii) (s : string)
  : option (nat * string) :=
  Re.lit "[" s (fun s1 =>
  Re.plus_greedy Js.isDigit s1 (fun digits s2 =>
  Re.lit "]" s2 (fun _ =>
  Some (String.length digits + 2, digits)))).

(** The anchor written for a marker that resolves to [source]. *)
Definition citationLink (source : GroundingSource) (number : N) : string :=
  let q := Js.dquote in
  "<sup class=" ++ q ++ "font-medium text-sky-400" ++ q ++ "><a href=" ++ q ++
  uri source ++ q ++ " target=" ++ q ++ "_blank" ++ q ++ " rel=" ++ q ++
  "noopener noreferrer" ++ q ++ " title=" ++ q ++
  (if Js.truthy (title source) then title source else uri source) ++ q ++
  " class=" ++ q ++ "no-underline hover:underline" ++ q ++ ">[" ++
  Js.numberToString number ++ "]</a></sup>".

(** The callback of the replacement. [None] stands for the TypeError of
    reading [source.uri] when [sources[number - 1]] is undefined. *)
Definition citationCallback (sources : list GroundingSource)
    (numberStr : string) : option string :=
  let number := Js.parseInt numberStr in
  if (0 <? number)%N && (number <=? N.of_nat (List.length sources))%N then
    match nth_error sources (N.to_nat (number - 1)) with
    | Some source => Some (citationLink source number)
    | None => None
    end
  else Some ("[" ++ numberStr ++ "]").

Definition formatCitations (text : string)
    (sources : option (list GroundingSource)) : option string :=
  match sources with
  | None => Some text
  | Some [] => Some text
  | Some srcs =>
      Re.replaceWith (citationCallback srcs) (Re.scan citationRe text)
  end.

End ChatSection.

(** ** The types of the client library used here ([@google/genai]) *)

Module Genai.

Inductive Part : Type :=
| TextPart (text : string)
| InlineData (data : string) (mimeType : string).

Record Content : Type := mkContent {
  role : string;
  parts : list Part
}.

Record Web : Type := mkWeb {
  uri : option string;
  title : option string
}.

Record GroundingChunk : Type := mkChunk {
  web : option Web
}.

(** An entry of the URL-context metadata: [urlRetrievalStatus] and
    [retrievedUrl]. *)
Record UrlMetadata : Type := mkUrlMetadata {
  urlRetrievalStatus : option string;
  retrievedUrl : option string
}.

(** What the service reads of a reply: [response.text], the grounding
    chunks of the first candidate
    ([candidates?.[0]?.groundingMetadata?.groundingChunks]) and its
    [urlContextMetadata] when that is an array. *)
Record GenerateContentResponse : Type := mkResponse {
  text : option string;
  groundingChunks : option (list GroundingChunk);
  urlContextMetadata : option (list UrlMetadata)
}.

End Genai.

(** ** The URL objects of the platform *)

Module Url.

(** A parsed URL, by its serialization up to the fragment and by its
    fragment, if it has one. *)
Record URL : Type := mkURL {
  withoutFragment : string;
  fragment : option string
}.

(** [url.href]: the serialization, which ends with a number sign and the
    fragment when the URL has one. *)
Definition href (url : URL) : string :=
  withoutFragment url ++
  match fragment url with
  | Some f => "#" ++ f
  | None => EmptyString
  end.

(** [url.hash = '']: the fragment is removed. *)
Definition clearHash (url : URL) : URL :=
  mkURL (withoutFragment url) None.

End Url.

(** ** The generation service ([services/geminiService.ts]) *)

Module GeminiService.

Import Js.
Import Genai (Part, TextPart, InlineData, Content, mkContent).

(** *** Values thrown *)

(** The classes of thrown values the handlers tell apart with
    [instanceof]: a plain [Error], a [SyntaxError] (of [JSON.parse]), a
    [TypeError] (a property read on [null] or [undefined]), another
    subclass of [Error] (of the client library), and a thrown value that
    is no [Error] at all. *)
Inductive errorClass : Type :=
| PlainError
| SyntaxErrorClass
| TypeErrorClass
| OtherErrorClass
| NotAnError.

Definition instanceofError (c : errorClass) : bool :=
  match c with NotAnError => false | _ => true end.

Definition instanceofSyntaxError (c : errorClass) : bool :=
  match c with SyntaxErrorClass => true | _ => false end.

(** *** JSON values, as [JSON.parse] returns them *)

Inductive number : Type :=
| Num (numerator : Z) (denominator : positive)
| Infinity (negative : bool).

#[local] Unset Elimination Schemes.

Inductive json : Type :=
| JNull
| JBool (b : bool)
| JNumber (n : number)
| JString (s : string)
| JArray (elements : list json)
| JObject (properties : list (string * json)).

#[local] Set Elimination Schemes.

(** Thrown values: the service's own [MissingPdfError], which carries
    the [urls] it was built with, or any other value, of which only the
    class and the message are observed. *)
Inductive thrown : Type :=
| MissingPdfError (message : string) (urls : list json)
| Exn (cls : errorClass) (message : string).

(** [error instanceof Error] and [error.message]. *)
Definition isError (error : thrown) : bool :=
  match error with
  | MissingPdfError _ _ => true
  | Exn cls _ => instanceofError cls
  end.

Definition messageOf (error : thrown) : string :=
  match error with
  | MissingPdfError message _ => message
  | Exn _ message => message
  end.

Definition isSyntaxError (error : thrown) : bool :=
  match error with
  | MissingPdfError _ _ => false
  | Exn cls _ => instanceofSyntaxError cls
  end.

Definition result (A : Type) : Type := completion thrown A.

Definition bind (A B : Type) (m : result A) (f : A -> result B) : result B :=
  match m with
  | Returned v => f v
  | Threw e => Threw e
  end.

Notation "x <- m ;; f" := (bind m (fun x => f))
  (at level 61, m at next level, right associativity).

Definition numberTruthy (n : number) : bool :=
  match n with
  | Num z _ => negb (z =? 0)%Z
  | Infinity _ => true
  end.

Definition jsonTruthy (v : json) : bool :=
  match v with
  | JNull => false
  | JBool b => b
  | JNumber n => numberTruthy n
  | JString s => truthy s
  | JArray _ => true
  | JObject _ => true
  end.

(** The own property [key] of a parsed object. [JSON.parse] returns
    objects in which every key occurs once. *)
Fixpoint lookup (key : string) (properties : list (string * json))
  : option json :=
  match properties with
  | [] => None
  | (k, v) :: rest => if (k =? key)%string then Some v else lookup key rest
  end.

Definition nullReadMessage : string :=
  "Cannot read properties of null (reading 'missing_pdfs')".

Definition undefinedMatchMessage : string :=
  "Cannot read properties of undefined (reading 'match')".

(** [parsedResponse.missing_pdfs]: a TypeError on [null], the property
    of an object, and [undefined] on every other parsed value (no array,
    string, number or boolean has a property of that name). *)
Definition get_missing_pdfs (parsedResponse : json) : result (option json) :=
  match parsedResponse with
  | JNull => Threw (Exn TypeErrorClass nullReadMessage)
  | JObject properties => Returned (lookup "missing_pdfs" properties)
  | _ => Returned None
  end.

(** *** The request *)

Record Pdf : Type := mkPdf {
  base64 : string;
  mimeType : string
}.

Record Context : Type := mkContext {
  urls : option (list string);
  pdfs : option (list Pdf);
  pastedTexts : option (list string);
  searchQuery : option string;
  focusTopic : option string;
  model : string
}.

Inductive Tool : Type :=
| url_context
| googleSearch.

Definition isUrlContext (t : Tool) : bool :=
  match t with url_context => true | googleSearch => false end.

Definition isGoogleSearch (t : Tool) : bool :=
  match t with googleSearch => true | url_context => false end.

#[local] Unset Elimination Schemes.

Inductive Schema : Type :=
| TypeString (description : string)
| TypeArray (description : option string) (items : Schema)
| TypeObject (properties : list (string * Schema)) (required : list string).

#[local] Set Elimination Schemes.

Definition schema : Schema :=
  TypeArray None
    (TypeObject
       [("section_title",
         TypeString "A concise title for the teaching section.");
        ("qa_pairs",
         TypeArray
           (Some "A list of question and answer pairs for this section.")
           (TypeObject
              [("question", TypeString "The question.");
               ("answer",
                TypeString "The detailed answer to the question, potentially containing Markdown.")]
              ["question"; "answer"]))]
       ["section_title"; "qa_pairs"]).

(** The argument of [ai.models.generateContent]; the sampling constants
    and the safety settings, the same in every request, are left out. *)
Record Request : Type := mkRequest {
  reqModel : string;
  contents : list Content;
  systemInstruction : string;
  tools : option (list Tool);
  responseMimeType : option string;
  responseSchema : option Schema
}.

Definition nonEmpty (A : Type) (o : option (list A)) : option (list A) :=
  match o with
  | Some (x :: r) => Some (x :: r)
  | _ => None
  end.

(** The URL block: its description and the tools after it. *)
Definition addUrls (ctx : Context) (descs : list string * list Tool)
  : list string * list Tool :=
  match nonEmpty (urls ctx) with
  | Some us =>
      let urlList := join ", " us in
      (push (fst descs)
         ("the " ++ (if (1 <? List.length us)%nat then "webpages" else "webpage")
          ++ " at the URL(s): " ++ urlList),
       if existsb isUrlContext (snd descs) then snd descs
       else push (snd descs) url_context)
  | None => descs
  end.

Definition addPdfs (ctx : Context) (acc : list string * list Part)
  : list string * list Part :=
  match nonEmpty (pdfs ctx) with
  | Some ps =>
      (push (fst acc)
         ("the provided " ++ natToString (List.length ps) ++
          " PDF document(s)"),
       pushAll (snd acc)
         (map (fun pdf => InlineData (base64 pdf) (mimeType pdf)) ps))
  | None => acc
  end.

Definition pastedPart (text : string) : Part :=
  TextPart ("--- START OF PASTED CONTENT ---" ++ nl ++ text ++ nl ++
            "--- END OF PASTED CONTENT ---").

Definition addPastedTexts (ctx : Context) (acc : list string * list Part)
  : list string * list Part :=
  match nonEmpty (pastedTexts ctx) with
  | Some ts =>
      (push (fst acc)
         ("the provided " ++ natToString (List.length ts) ++
          " pasted text snippet(s)"),
       pushAll (snd acc) (map pastedPart ts))
  | None => acc
  end.

Definition addSearch (ctx : Context) (descs : list string * list Tool)
  : list string * list Tool :=
  match searchQuery ctx with
  | Some q =>
      if truthy q then
        (push (fst descs) ("a Google search for " ++ dquote ++ q ++ dquote),
         if existsb isGoogleSearch (snd descs) then snd descs
         else push (snd descs) googleSearch)
      else descs
  | None => descs
  end.

Definition baseText (ctx : Context) (sourceDescriptions : list string)
  : string :=
  "Your analysis should be based on the following merged sources: " ++
  join " AND " sourceDescriptions ++
  ". Please synthesize information from all these sources." ++
  (if truthy_opt (searchQuery ctx) then
     nl ++ nl ++ "When performing the Google Search, focus on this query: " ++
     dquote ++ match searchQuery ctx with Some q => q | None => EmptyString end
     ++ dquote ++ "."
   else EmptyString).

Definition educatorInstruction : string :=
  "You are an expert radiology educator. Your task is to analyze the provided content and break it down into 5-7 sequential teaching sections.".

Definition focusInstruction (topic : string) : string :=
  " The user has a specific interest in " ++ dquote ++ topic ++ dquote ++
  ". Focus your analysis and section creation on this topic, extracting all relevant details from the content.".

Definition sectionInstruction : string :=
  nl ++ "For each section, provide a title and a series of question-and-answer pairs that capture the core concepts." ++
  nl ++ "The 'answer' for each question should be detailed, comprehensive, and can include Markdown for formatting." ++
  nl ++ "Important: Your output is for experienced Radiologists, so maintain a professional, technical tone.".

Definition groundingInstruction : string :=
  nl ++ "When creating the teaching sections, you MUST ground your entire response in the search results provided by the Google Search tool. The sources you use will be displayed to the user.".

(** The missing-document escalation instruction. *)
Definition escalationInstruction : string :=
  nl ++ "If after searching you determine that the most relevant information is contained within PDF documents that you cannot access, you MUST NOT generate the teaching sections. Instead, your entire response MUST be a valid JSON object with a single key 'missing_pdfs', which is an array of strings, where each string is the URL of a PDF you need the user to upload. Example: {" ++
  dquote ++ "missing_pdfs" ++ dquote ++ ": [" ++ dquote ++
  "https://example.com/study.pdf" ++ dquote ++
  "]}. Only use this format if you are confident that the primary information is in an inaccessible PDF. Otherwise, the final output MUST be a valid JSON array of objects, strictly adhering to the provided schema. Do not add any text before or after the JSON. Do not wrap the JSON in markdown backticks.".

Definition schemaInstruction : string :=
  nl ++ "The final output MUST be a valid JSON array of objects, strictly adhering to the provided schema. Do not add any text before or after the JSON.".

(** The instruction up to the branch on the search tool. *)
Definition preamble (ctx : Context) : string :=
  educatorInstruction ++
  (match focusTopic ctx with
   | Some topic =>
       if truthy topic && truthy (trim topic) then focusInstruction topic
       else EmptyString
   | None => EmptyString
   end) ++
  sectionInstruction.

Definition noContentMessage : string :=
  "No content provided to generate teaching sections.".

(** Everything [getTeachingSections] does before it calls the backend.
    The only failure is the one thrown when no source was described. *)
Definition compileRequest (ctx : Context) : result Request :=
  let '(descs1, tools1) := addUrls ctx ([], []) in
  let '(descs2, parts2) := addPdfs ctx (descs1, []) in
  let '(descs3, parts3) := addPastedTexts ctx (descs2, parts2) in
  let '(sourceDescriptions, tools4) := addSearch ctx (descs3, tools1) in
  match sourceDescriptions with
  | [] => Threw (Exn PlainError noContentMessage)
  | _ =>
      let contentPromptParts :=
        TextPart (baseText ctx sourceDescriptions) :: parts3 in
      let useGoogleSearch := existsb isGoogleSearch tools4 in
      Returned
        {| reqModel := model ctx;
           contents := [mkContent "user" contentPromptParts];
           systemInstruction :=
             preamble ctx ++
             (if useGoogleSearch
              then groundingInstruction ++ escalationInstruction
              else schemaInstruction);
           tools := nonEmpty (Some tools4);
           responseMimeType :=
             if useGoogleSearch then None else Some "application/json";
           responseSchema :=
             if useGoogleSearch then None else Some schema |}
  end.

(** Whether the search tool is among the tools of the request. *)
Definition useGoogleSearch (req : Request) : bool :=
  match tools req with
  | Some ts => existsb isGoogleSearch ts
  | None => false
  end.

(** *** The provenance of a reply *)

(** The elements of [l] for which [f] is defined, in order: a [map]
    followed by a [filter] that keeps the defined results. *)
Fixpoint choose (A B : Type) (f : A -> option B) (l : list A) : list B :=
  match l with
  | [] => []
  | x :: r =>
      match f x with
      | Some y => y :: choose f r
      | None => choose f r
      end
  end.

(** The type guard [!!web && !!web.uri && !!web.title]: the source a
    chunk's [web] entry stands for when it passes, nothing otherwise. *)
Definition guardedWeb (web : option Genai.Web) : option GroundingSource :=
  match web with
  | Some w =>
      match Genai.uri w, Genai.title w with
      | Some u, Some t =>
          if truthy u && truthy t then Some (mkSource u t) else None
      | _, _ => None
      end
  | None => None
  end.

(** [groundingChunks.map(chunk => chunk.web).filter(...)]. *)
Definition groundingSources (groundingChunks : list Genai.GroundingChunk)
  : list GroundingSource :=
  choose guardedWeb (map Genai.web groundingChunks).

Definition retrievalSuccess : string := "URL_RETRIEVAL_STATUS_SUCCESS".

(** The filter and the map over the URL-context metadata: a record with
    the success status and a truthy [retrievedUrl] gives a source whose
    uri and title are that URL. *)
Definition successfulUrlSource (meta : Genai.UrlMetadata)
  : option GroundingSource :=
  match Genai.urlRetrievalStatus meta, Genai.retrievedUrl meta with
  | Some status, Some url =>
      if (status =? retrievalSuccess)%string && truthy url
      then Some (mkSource url url) else None
  | _, _ => None
  end.

(** The body of the [forEach]: the source is pushed unless a source with
    its uri is in the list already. *)
Definition pushIfNew (sources : list GroundingSource)
    (urlSource : GroundingSource) : list GroundingSource :=
  if existsb (fun s => (uri s =? uri urlSource)%string) sources
  then sources else push sources urlSource.

Definition mergeUrlSources (sources successfulUrlSources : list GroundingSource)
  : list GroundingSource :=
  fold_left pushIfNew successfulUrlSources sources.

(** The sources of a lesson reply. The warning written to the console
    for the records without the success status has no effect on the
    result and is left out. *)
Definition resolveSources (response : Genai.GenerateContentResponse)
  : list GroundingSource :=
  let sources :=
    match Genai.groundingChunks response with
    | Some chunks => groundingSources chunks
    | None => []
    end in
  match Genai.urlContextMetadata response with
  | Some urlContextMetadata =>
      mergeUrlSources sources (choose successfulUrlSource urlContextMetadata)
  | None => sources
  end.

(** *** The text handed to [JSON.parse] *)

Definition fence : string := "```".

(** The expression [/```(json)?\s*([\s\S]*?)\s*```/]; the result is
    group 2. *)
Definition fenceRe (_ : option ascii) (s : string) : option string :=
  Re.lit fence s (fun s1 =>
  Re.opt_lit "json" s1 (fun s2 =>
  Re.star_greedy isSpace s2 (fun _ s3 =>
  Re.star_lazy isAny s3 (fun group2 s4 =>
  Re.star_greedy isSpace s4 (fun _ s5 =>
  Re.lit fence s5 (fun _ => Some group2)))))).

(** One alternative of [/\{[\s\S]*\}|\[[\s\S]*\]/]; the result is the
    whole match. *)
Definition delimitedRe (opening closing : string) (s : string)
  : option string :=
  Re.lit opening s (fun s1 =>
  Re.star_greedy isAny s1 (fun inner s2 =>
  Re.lit closing s2 (fun _ => Some (opening ++ inner ++ closing)))).

Definition rawJsonRe (_ : option ascii) (s : string) : option string :=
  Re.alt (delimitedRe "{" "}" s) (delimitedRe "[" "]" s).

Definition nonJsonMessage : string :=
  "The AI returned a non-JSON response when Google Search was used. Could not find a valid JSON object or array.".

(** The manual extraction done when the search tool was used. *)
Definition extractJson (responseText : string) : result string :=
  let fallback :=
    match Re.search rawJsonRe responseText with
    | Some (_, whole) => Returned whole
    | None => Threw (Exn PlainError nonJsonMessage)
    end in
  match Re.search fenceRe responseText with
  | Some (_, group2) => if truthy group2 then Returned group2 else fallback
  | None => fallback
  end.

(** The argument of [JSON.parse]. An undefined [response.text] makes
    [responseText.match] throw in search mode and is converted to the
    string [undefined] by [JSON.parse] otherwise. *)
Definition jsonText (search : bool) (responseText : option string)
  : result string :=
  if search then
    match responseText with
    | Some t => extractJson t
    | None => Threw (Exn TypeErrorClass undefinedMatchMessage)
    end
  else
    Returned (match responseText with Some t => t | None => "undefined" end).

(** *** The classification of the parsed reply *)

Definition isArray (v : json) : bool :=
  match v with JArray _ => true | _ => false end.

Definition elements (v : json) : list json :=
  match v with JArray l => l | _ => [] end.

Definition missingPdfMessage : string :=
  "The AI has requested you upload PDFs for more context.".

Definition unexpectedFormatMessage : string :=
  "The AI returned teaching sections in an unexpected format.".

(** The lesson as returned: the parsed array and the sources. *)
Definition Lesson : Type := (list json * list GroundingSource)%type.

Definition classify (parsedResponse : json) (sources : list GroundingSource)
  : result Lesson :=
  missing_pdfs <- get_missing_pdfs parsedResponse ;;
  if match missing_pdfs with
     | Some v =>
         jsonTruthy v && isArray v && (0 <? List.length (elements v))%nat
     | None => false
     end
  then
    Threw (MissingPdfError missingPdfMessage
             (match missing_pdfs with Some v => elements v | None => [] end))
  else if isArray parsedResponse
  then Returned (elements parsedResponse, sources)
  else Threw (Exn PlainError unexpectedFormatMessage).

Definition safetyMessage : string :=
  "The content could not be processed due to safety filters. Please ensure the URL/query links to appropriate content.".

Definition malformedJsonMessage : string :=
  "Failed to parse the response from the AI as valid JSON. The AI's output may have been malformed.".

Definition generationFailedMessage : string :=
  "Failed to generate teaching sections. The AI model might be busy or there was an issue with the request.".

(** The [catch] block of [getTeachingSections]: what it throws for what
    it caught. *)
Definition rethrow (error : thrown) : thrown :=
  match error with
  | MissingPdfError _ _ => error
  | Exn _ _ =>
      if isError error && includes "SAFETY" (messageOf error)
      then Exn PlainError safetyMessage
      else if isSyntaxError error
      then Exn PlainError malformedJsonMessage
      else Exn PlainError generationFailedMessage
  end.

(** The [try] with its [catch]: a value is returned as it is, a thrown
    value is replaced by what the [catch] block throws for it. *)
Definition settle (A : Type) (attempt : result A) : result A :=
  match attempt with
  | Returned v => Returned v
  | Threw error => Threw (rethrow error)
  end.

Definition apiKeyMessage : string := "API_KEY is not configured.".

(** A failure of the backend call: the class and the message of what the
    client library threw. *)
Definition BackendFailure : Type := (errorClass * string)%type.

Definition ofBackend (A : Type) (c : completion BackendFailure A) : result A :=
  match c with
  | Returned v => Returned v
  | Threw (cls, message) => Threw (Exn cls message)
  end.

(** [JSON.parse] returns a value or throws a SyntaxError, given here by
    its message. *)
Definition ofParse (c : completion string json) : result json :=
  match c with
  | Returned v => Returned v
  | Threw message => Threw (Exn SyntaxErrorClass message)
  end.

Section Service.

(** The environment of the service: the configured key, the backend
    call and the platform's JSON parser. *)
Variable API_KEY : option string.
Variable generateContent :
  Request -> completion BackendFailure Genai.GenerateContentResponse.
Variable JSON_parse : string -> completion string json.

(** The end of the [try] block: the text is parsed and the parsed
    value classified. *)
Definition parseAndClassify (responseText : string)
  (sources : list GroundingSource) : result Lesson :=
  parsedResponse <- ofParse (JSON_parse responseText) ;;
  classify parsedResponse sources.

(** The [try] block of [getTeachingSections]. *)
Definition generateLesson (req : Request) : result Lesson :=
  response <- ofBackend (generateContent req) ;;
  let sources := resolveSources response in
  responseText <- jsonText (useGoogleSearch req) (Genai.text response) ;;
  parseAndClassify responseText sources.

Definition getTeachingSections (context : Context) : result Lesson :=
  if negb (truthy_opt API_KEY) then Threw (Exn PlainError apiKeyMessage)
  else
    req <- compileRequest context ;;
    settle (generateLesson req).

End Service.

(** *** The follow-up chat *)

Record ChatResponse : Type := mkChatResponse {
  text : string;
  sources : list GroundingSource;
  relatedLinks : list GroundingSource
}.

Record ChatContext : Type := mkChatContext {
  originalQuestion : string;
  originalAnswer : string;
  fullSectionContent : string
}.

(** [s.substring(0, n)] followed by the ellipsis when [s] is longer. *)
Definition capped (n : nat) (s : string) : string :=
  String.substring 0 n s ++
  (if (n <? String.length s)%nat then "..." else EmptyString).

Definition assistantInstruction (context : ChatContext) : string :=
  "You are a helpful radiology AI teaching assistant. The user is asking a follow-up question about a specific topic from a lesson you are teaching." ++
  nl ++ "  " ++
  nl ++ "  This is the immediate context for their question:" ++
  nl ++ "  - Original Question: " ++ dquote ++ originalQuestion context ++ dquote ++
  nl ++ "  - Original Answer: " ++ dquote ++ capped 500 (originalAnswer context) ++ dquote ++
  nl ++ "  " ++
  nl ++ "  This is the broader context of the entire teaching section:" ++
  nl ++ "  " ++ dquote ++ capped 800 (fullSectionContent context) ++ dquote ++
  nl ++ "  " ++
  nl ++ "  Your task is to provide a clear, concise, and helpful answer to their follow-up question. Maintain a patient and encouraging tone.".

Definition citeInstruction : string :=
  nl ++ "You MUST use the Google Search tool to find the most up-to-date and relevant information to answer the user's question. Base your answer on the search results. When you use information from a search result, you MUST add a numeric citation in the format [1], [2], etc., directly after the statement. The citation numbers must correspond to the order of sources provided in the grounding metadata. For example: 'This is a statement from a source [1]. This is another statement from another source [2].'".

Definition noAnswerSentence : string :=
  "The uploaded contents don't have an answer for that question. Please try the 'web for answer' option.".

Definition contextOnlyInstruction : string :=
  nl ++ "Answer based ONLY on the provided context. If the answer to the user's question is not found within the provided context (Original Question, Original Answer, and broader context), you MUST respond with the exact phrase: " ++
  dquote ++ noAnswerSentence ++ dquote ++
  " Do not add any other text or explanation.".

Definition chatRequest (context : ChatContext) (useSearch : bool)
    (history : list Content) (modelName : string) : Request :=
  {| reqModel := modelName;
     contents := history;
     systemInstruction :=
       assistantInstruction context ++
       (if useSearch then citeInstruction else contextOnlyInstruction);
     tools := if useSearch then Some [googleSearch] else None;
     responseMimeType := None;
     responseSchema := None |}.

(** Matching under the [i] flag compares canonical code units. For the
    letters of the pattern used here only the ASCII letters of either
    case have the canonical form of the pattern's. *)
Definition canonicalize (c : ascii) : ascii :=
  let n := code c in
  if ((97 <=? n) && (n <=? 122))%nat then ascii_of_nat (n - 32) else c.

Fixpoint prefix_ci (l s : string) : bool :=
  match l, s with
  | EmptyString, _ => true
  | String _ _, EmptyString => false
  | String a l', String b s' =>
      (canonicalize a =? canonicalize b)%char && prefix_ci l' s'
  end.

Definition lit_ci (R : Type) (l : string) (s : string)
    (k : string -> option R) : option R :=
  if prefix_ci l s then k (drop (String.length l) s) else None.

Definition opt_lit_ci (R : Type) (l : string) (s : string)
    (k : string -> option R) : option R :=
  match lit_ci l s k with
  | Some r => Some r
  | None => k s
  end.

Definition isWordAt (c : option ascii) : bool :=
  match c with Some c => isWord c | None => false end.

Definition first (s : string) : option ascii :=
  match s with String c _ => Some c | EmptyString => None end.

(** The assertion [\b]: exactly one of the code units around the
    position is a word character. *)
Definition wordBoundary (prev : option ascii) (s : string) : bool :=
  xorb (isWordAt prev) (isWordAt (first s)).

(** The expression [/\bhttps?:\/\/\S+/gi]; the result is the length of
    the match and its text. *)
Definition urlRegex (prev : option ascii) (s : string)
  : option (nat * string) :=
  if wordBoundary prev s then
    lit_ci "http" s (fun s1 =>
    opt_lit_ci "s" s1 (fun s2 =>
    Re.lit "://" s2 (fun s3 =>
    Re.plus_greedy isNonSpace s3 (fun _ s4 =>
    let len := String.length s - String.length s4 in
    Some (len, String.substring 0 len s)))))
  else None.

(** [text.match(urlRegex) || []]. *)
Definition extractedUrls (text : string) : list string :=
  Re.hits (Re.scan urlRegex text).

(** The class [[.,;!?)\]>]]. *)
Definition isTrailingPunctuation (c : ascii) : bool :=
  let n := code c in
  ((n =? 46) || (n =? 44) || (n =? 59) || (n =? 33) || (n =? 63) ||
   (n =? 41) || (n =? 93) || (n =? 62))%nat.

(** The expression [/[.,;!?)\]>]+$/]; the result is the text after the
    match. *)
Definition trailingRe (_ : option ascii) (s : string) : option string :=
  Re.plus_greedy isTrailingPunctuation s (fun _ rest =>
    match rest with
    | EmptyString => Some rest
    | String _ _ => None
    end).

(** [url.replace(/[.,;!?)\]>]+$/, '')]. *)
Definition stripTrailing (url : string) : string :=
  match Re.search trailingRe url with
  | Some (before, after) => before ++ after
  | None => url
  end.

(** Insertion into a [Set]: a value already there is not added again,
    and the values are listed in the order of their first insertion. *)
Definition setAdd (set : list string) (x : string) : list string :=
  if existsb (String.eqb x) set then set else push set x.

Definition setOf (l : list string) : list string :=
  fold_left setAdd l [].

Definition has (set : list string) (x : string) : bool :=
  existsb (String.eqb x) set.

Definition safetyApology : string :=
  "I'm sorry, I cannot respond to that due to safety guidelines.".

Definition chatFailedMessage : string :=
  "Failed to get chat response. The AI model might be unavailable.".

Section Chat.

Variable API_KEY : option string.
Variable generateContent :
  Request -> completion BackendFailure Genai.GenerateContentResponse.

(** The platform's URL parser, [new URL(x)]: the URL object, or [None]
    when the constructor throws. *)
Variable newURL : string -> option Url.URL.

(** The body of the [map] over the extracted URLs: the URL without its
    trailing punctuation is parsed, its fragment is removed by
    [urlObj.hash = ''] and its serialization is returned; [None] stands
    for the [null] returned when the parser throws. *)
Definition cleanUrl (url : string) : option string :=
  match newURL (stripTrailing url) with
  | Some urlObj => Some (Url.href (Url.clearHash urlObj))
  | None => None
  end.

Definition relatedLinksOf (text : string) (sources : list GroundingSource)
  : list GroundingSource :=
  let cleanedUrls := choose cleanUrl (extractedUrls text) in
  let sourceUris := setOf (map uri sources) in
  map (fun url => mkSource url url)
    (filter (fun url => negb (has sourceUris url)) (setOf cleanedUrls)).

(** The [try] block of [getFollowUpResponse]. *)
Definition answerFollowUp (req : Request) : result ChatResponse :=
  response <- ofBackend (generateContent req) ;;
  let sources :=
    match Genai.groundingChunks response with
    | Some chunks => groundingSources chunks
    | None => []
    end in
  match Genai.text response with
  | None => Threw (Exn TypeErrorClass undefinedMatchMessage)
  | Some text =>
      Returned (mkChatResponse text sources (relatedLinksOf text sources))
  end.

Definition getFollowUpResponse (userMessage : string)
    (context : ChatContext) (useSearch : bool) (history : list Content)
    (modelName : string) : result ChatResponse :=
  if negb (truthy_opt API_KEY) then Threw (Exn PlainError apiKeyMessage)
  else
    match answerFollowUp (chatRequest context useSearch history modelName)
    with
    | Returned response => Returned response
    | Threw error =>
        if isError error && includes "SAFETY" (messageOf error)
        then Returned (mkChatResponse safetyApology [] [])
        else Threw (Exn PlainError chatFailedMessage)
    end.

End Chat.

(** *** Notions used in the statements *)

(** The key of the escalation object, which the escalation instruction
    names. *)
Definition escalationKey : string := "missing_pdfs".

(** Whether the context asks for a web search, and its focus topic as
    written into the instruction. *)
Definition searchRequested (ctx : Context) : bool :=
  truthy_opt (searchQuery ctx).

Definition topicOf (ctx : Context) : string :=
  match focusTopic ctx with Some topic => topic | None => EmptyString end.

(** The two channels of a reply, for the statements about the merge:
    the sources of the grounding channel, and the records of the
    retrieval channel. *)
Definition groundingOf (response : Genai.GenerateContentResponse)
  : list GroundingSource :=
  match Genai.groundingChunks response with
  | Some chunks => groundingSources chunks
  | None => []
  end.

Definition retrievedOf (response : Genai.GenerateContentResponse)
  : list Genai.UrlMetadata :=
  match Genai.urlContextMetadata response with
  | Some metadata => metadata
  | None => []
  end.

(** The words of a text: its maximal runs of code units that are not
    white space, in order. [wordsFrom] returns the word under way at the
    head of the text, which is empty when the text starts with white
    space, and the words behind it. *)
Fixpoint wordsFrom (s : string) : string * list string :=
  match s with
  | EmptyString => (EmptyString, [])
  | String c t =>
      let '(w, ws) := wordsFrom t in
      if isSpace c then (EmptyString, if truthy w then w :: ws else ws)
      else (String c w, ws)
  end.

Definition words (s : string) : list string :=
  let '(w, ws) := wordsFrom s in if truthy w then w :: ws else ws.

(** Whether a word starts with a scheme, [http] or [https] in either
    case, the colon and two slashes, and goes on behind them. *)
Definition hasScheme (w : string) : bool :=
  (prefix_ci "http://" w && truthy (drop 7 w)) ||
  (prefix_ci "https://" w && truthy (drop 8 w)).

(** The URL token of a word: the word from the first of its places
    where a scheme starts that no word character precedes. [prev] is the
    code unit before the word or the part of it looked at. *)
Fixpoint urlFrom (prev : option ascii) (w : string) : option string :=
  match w with
  | EmptyString => None
  | String c t =>
      if negb (isWordAt prev) && hasScheme w then Some w
      else urlFrom (Some c) t
  end.

Definition urlOfWord (w : string) : list string :=
  match urlFrom None w with
  | Some token => [token]
  | None => []
  end.

(** The URL tokens of a text: those of its words. *)
Definition urlTokens (text : string) : list string :=
  flat_map urlOfWord (words text).

(** A source with a non-empty uri and a non-empty title. *)
Definition wellFormed (s : GroundingSource) : Prop :=
  uri s <> EmptyString /\ title s <> EmptyString.

(** Whether a fence closes at the start of [s], white space skipped. *)
Definition closesFence (s : string) : bool :=
  startsWith fence (dropWhile isSpace s).

(** The shortest prefix of [s] behind which [q] holds. *)
Fixpoint lazyUntil (q : string -> bool) (s : string) : option string :=
  if q s then Some EmptyString
  else
    match s with
    | EmptyString => None
    | String c t =>
        match lazyUntil q t with
        | Some m => Some (String c m)
        | None => None
        end
    end.

(** The text before the last occurrence of the code unit [ch]. *)
Fixpoint beforeLast (ch : ascii) (s : string) : option string :=
  match s with
  | EmptyString => None
  | String x t =>
      match beforeLast ch t with
      | Some m => Some (String x m)
      | None => if (ch =? x)%char then Some EmptyString else None
      end
  end.

(** The content of a fence without the tag [json], if it starts with
    it. *)
Definition stripTag (content : string) : string :=
  if startsWith "json" content then drop 4 content else content.

(** The text before and the text behind the first occurrence of
    [sep]. *)
Fixpoint cut (sep s : string) : option (string * string) :=
  if startsWith sep s then Some (EmptyString, drop (String.length sep) s)
  else
    match s with
    | EmptyString => None
    | String c t =>
        match cut sep t with
        | Some (before, behind) => Some (String c before, behind)
        | None => None
        end
    end.

(** The content of the first fenced block of a text: what stands
    between the first fence of the text and the next fence behind it,
    without the tag [json] right behind the opening fence and without
    the white space around it. There is none when the text has no fence
    or no second fence behind the first. [fenceContent] is given the
    text behind the opening fence. *)
Definition fenceContent (rest : string) : option string :=
  match cut fence (trimStart (stripTag rest)) with
  | Some (inner, _) => Some (trimEnd inner)
  | None => None
  end.

Definition firstFenceContent (text : string) : option string :=
  match cut fence text with
  | Some (_, rest) => fenceContent rest
  | None => None
  end.

(** The closing code unit of an opening brace or bracket. *)
Definition closerOf (c : ascii) : option ascii :=
  if (c =? "{")%char then Some "}"%char
  else if (c =? "[")%char then Some "]"%char
  else None.

(** The widest span of a text: from its first opening brace or bracket
    behind which a closing one of its kind occurs, to the last closing
    one of that kind. *)
Fixpoint widestSpan (s : string) : option string :=
  match s with
  | EmptyString => None
  | String c t =>
      match closerOf c with
      | Some closing =>
          match beforeLast closing t with
          | Some inner => Some (String c (inner ++ String closing EmptyString))
          | None => widestSpan t
          end
      | None => widestSpan t
      end
  end.

(** The text to parse in free-text mode: the content of the first fenced
    block when there is one and it is not empty, the widest span
    otherwise. *)
Definition textToParse (text : string) : option string :=
  match firstFenceContent text with
  | Some (String c content) => Some (String c content)
  | _ => widestSpan text
  end.

(** The extraction the specification words for the fallback: "the first
    top-level JSON object or array found by bracket matching", that is,
    the text from the first opening brace or bracket to the closing one
    that balances it. It is used to compare the specification with
    [extractJson]; the service has no such function. *)
Definition isOpening (c : ascii) : bool := (c =? "{")%char || (c =? "[")%char.

Definition isClosing (c : ascii) : bool := (c =? "}")%char || (c =? "]")%char.

Fixpoint specBalanced (depth : nat) (s : string) : option string :=
  match s with
  | EmptyString => None
  | String c t =>
      if isOpening c then
        match specBalanced (S depth) t with
        | Some m => Some (String c m)
        | None => None
        end
      else if isClosing c then
        match depth with
        | O => None
        | S O => Some (String c EmptyString)
        | S d =>
            match specBalanced d t with
            | Some m => Some (String c m)
            | None => None
            end
        end
      else
        match specBalanced depth t with
        | Some m => Some (String c m)
        | None => None
        end
  end.

Definition specFirstBalanced (s : string) : option string :=
  specBalanced 0 (dropWhile (fun c => negb (isOpening c)) s).

(** The validation the specification words for a lesson element: "has a
    title and a non-empty QA list". It is used to compare the
    specification with [classify]; the service has no such function. *)
Definition specValidSection (element : json) : bool :=
  match element with
  | JObject properties =>
      match lookup "section_title" properties, lookup "qa_pairs" properties with
      | Some (JString _), Some (JArray (_ :: _)) => true
      | _, _ => false
      end
  | _ => false
  end.

End GeminiService.

(** ** The application component ([App.tsx]) *)

Module App.

(** An uploaded file, by its name, its type and the base64 encoding of
    its content. *)
Record File : Type := mkFile {
  fileName : string;
  fileType : string;
  fileBase64 : string
}.

(** The context of a "start learning" action. The input form hands over
    no pasted texts; the retained context is untyped in the source,
    which reads its [pdfFiles] with a fallback to the empty array. *)
Record LearningContext : Type := mkLearningContext {
  urls : list string;
  pdfFiles : option (list File);
  pastedTexts : option (list string);
  searchQuery : string;
  focusTopic : string;
  model : string
}.

(** What was attached for one requested document. *)
Record Supplement : Type := mkSupplement {
  file : option File;
  text : option string;
  name : string
}.

(** The part of the component state that the lesson and its resubmission
    read and write. [supplementalContent] is an object used as a map
    from the requested URL to its attachment; its entries are kept in
    the order in which the platform lists the keys of an object. *)
Record State : Type := mkState {
  teachingSteps : list GeminiService.json;
  initialSources : list GroundingSource;
  error : string;
  lastLearningContext : option LearningContext;
  requestedPdfs : list GeminiService.json;
  supplementalContent : list (string * Supplement);
  supplementalBulkPdfs : list File;
  pastingForUrl : option string;
  currentPastedText : string
}.

Definition initialState : State :=
  {| teachingSteps := [];
     initialSources := [];
     error := EmptyString;
     lastLearningContext := None;
     requestedPdfs := [];
     supplementalContent := [];
     supplementalBulkPdfs := [];
     pastingForUrl := None;
     currentPastedText := EmptyString |}.

(** The state setters used below. *)
Definition setError (message : string) (st : State) : State :=
  mkState (teachingSteps st) (initialSources st) message
    (lastLearningContext st) (requestedPdfs st) (supplementalContent st)
    (supplementalBulkPdfs st) (pastingForUrl st) (currentPastedText st).

Definition setTeachingSteps (steps : list GeminiService.json) (st : State)
  : State :=
  mkState steps (initialSources st) (error st)
    (lastLearningContext st) (requestedPdfs st) (supplementalContent st)
    (supplementalBulkPdfs st) (pastingForUrl st) (currentPastedText st).

Definition setInitialSources (sources : list GroundingSource) (st : State)
  : State :=
  mkState (teachingSteps st) sources (error st)
    (lastLearningContext st) (requestedPdfs st) (supplementalContent st)
    (supplementalBulkPdfs st) (pastingForUrl st) (currentPastedText st).

Definition setLastLearningContext (context : option LearningContext)
    (st : State) : State :=
  mkState (teachingSteps st) (initialSources st) (error st)
    context (requestedPdfs st) (supplementalContent st)
    (supplementalBulkPdfs st) (pastingForUrl st) (currentPastedText st).

Definition setRequestedPdfs (requested : list GeminiService.json)
    (st : State) : State :=
  mkState (teachingSteps st) (initialSources st) (error st)
    (lastLearningContext st) requested (supplementalContent st)
    (supplementalBulkPdfs st) (pastingForUrl st) (currentPastedText st).

Definition setSupplementalContent (content : list (string * Supplement))
    (st : State) : State :=
  mkState (teachingSteps st) (initialSources st) (error st)
    (lastLearningContext st) (requestedPdfs st) content
    (supplementalBulkPdfs st) (pastingForUrl st) (currentPastedText st).

Definition setSupplementalBulkPdfs (files : list File) (st : State) : State :=
  mkState (teachingSteps st) (initialSources st) (error st)
    (lastLearningContext st) (requestedPdfs st) (supplementalContent st)
    files (pastingForUrl st) (currentPastedText st).

Definition setPastingForUrl (url : option string) (st : State) : State :=
  mkState (teachingSteps st) (initialSources st) (error st)
    (lastLearningContext st) (requestedPdfs st) (supplementalContent st)
    (supplementalBulkPdfs st) url (currentPastedText st).

Definition setCurrentPastedText (text : string) (st : State) : State :=
  mkState (teachingSteps st) (initialSources st) (error st)
    (lastLearningContext st) (requestedPdfs st) (supplementalContent st)
    (supplementalBulkPdfs st) (pastingForUrl st) text.

Definition missingKeyMessage : string :=
  "Gemini API Key is missing. Please configure the API_KEY environment variable.".

Definition undefinedLengthMessage : string :=
  "Cannot read properties of undefined (reading 'length')".

(** The payloads of the uploaded files, inside the [try] block: reading
    the length of undefined [pdfFiles] throws. *)
Definition pdfPayloads (context : LearningContext)
  : GeminiService.result (list GeminiService.Pdf) :=
  match pdfFiles context with
  | Some files =>
      Js.Returned
        (map (fun f => GeminiService.mkPdf (fileBase64 f) (fileType f)) files)
  | None =>
      Js.Threw (GeminiService.Exn GeminiService.TypeErrorClass
                  undefinedLengthMessage)
  end.

Definition serviceContext (context : LearningContext)
    (payloads : list GeminiService.Pdf) : GeminiService.Context :=
  {| GeminiService.urls := Some (urls context);
     GeminiService.pdfs := Some payloads;
     GeminiService.pastedTexts := pastedTexts context;
     GeminiService.searchQuery := Some (searchQuery context);
     GeminiService.focusTopic := Some (focusTopic context);
     GeminiService.model := model context |}.

Definition unknownErrorMessage : string :=
  "An unknown error occurred while fetching teaching content.".

Section Handlers.

Variable API_KEY : option string.

(** The lesson service as the component calls it. *)
Variable getTeachingSections :
  GeminiService.Context -> GeminiService.result GeminiService.Lesson.

(** [handleStartLearning]: the state when the call has settled. The
    context is retained before the call; it is kept when the call asks
    for missing documents and dropped in every other outcome. *)
Definition handleStartLearning (st : State) (context : LearningContext)
  : State :=
  if negb (Js.truthy_opt API_KEY) then setError missingKeyMessage st
  else
    let started :=
      setLastLearningContext (Some context)
        (setRequestedPdfs []
           (setInitialSources []
              (setTeachingSteps [] (setError EmptyString st)))) in
    match
      GeminiService.bind (pdfPayloads context) (fun payloads =>
        getTeachingSections (serviceContext context payloads))
    with
    | Js.Returned (sections, sources) =>
        setLastLearningContext None
          (setInitialSources sources (setTeachingSteps sections started))
    | Js.Threw (GeminiService.MissingPdfError message requested) =>
        setTeachingSteps []
          (setRequestedPdfs requested (setError message started))
    | Js.Threw (GeminiService.Exn cls message) =>
        setLastLearningContext None
          (setTeachingSteps []
             (setError
                (if GeminiService.instanceofError cls then message
                 else unknownErrorMessage)
                started))
    end.

(** [{ ...prev, [url]: value }]. The value of an existing key is
    replaced in place. A new key that is an array index is put among
    the array indices, in ascending order; any other new key is added
    last. *)
Fixpoint replaceKey (prev : list (string * Supplement)) (url : string)
    (value : Supplement) : list (string * Supplement) :=
  match prev with
  | [] => []
  | (k, v) :: rest =>
      if (k =? url)%string then (k, value) :: rest
      else (k, v) :: replaceKey rest url value
  end.

Fixpoint insertKey (prev : list (string * Supplement)) (url : string)
    (value : Supplement) : list (string * Supplement) :=
  match prev with
  | [] => [(url, value)]
  | (k, v) :: rest =>
      if Js.isArrayIndex url &&
         (negb (Js.isArrayIndex k) || (Js.parseInt url <? Js.parseInt k)%N)
      then (url, value) :: prev
      else (k, v) :: insertKey rest url value
  end.

Definition setKey (prev : list (string * Supplement)) (url : string)
    (value : Supplement) : list (string * Supplement) :=
  if existsb (fun entry => (fst entry =? url)%string) prev
  then replaceKey prev url value
  else insertKey prev url value.

Definition handleIndividualFileUpload (st : State) (chosen : option File)
    (url : string) : State :=
  match chosen with
  | Some f =>
      setSupplementalContent
        (setKey (supplementalContent st) url
           (mkSupplement (Some f) None (fileName f)))
        st
  | None => st
  end.

Definition handleSavePastedText (st : State) (url : string) : State :=
  setCurrentPastedText EmptyString
    (setPastingForUrl None
       (if Js.truthy (Js.trim (currentPastedText st)) then
          setSupplementalContent
            (setKey (supplementalContent st) url
               (mkSupplement None (Some (currentPastedText st))
                  ("Pasted content for " ++ String.substring 0 30 url ++
                   "...")))
            st
        else st)).

Definition lostContextMessage : string :=
  "Cannot re-submit, original context was lost.".

Definition nothingToSubmitMessage : string :=
  "Please provide content for at least one of the requested PDFs.".

(** [Object.values(supplementalContent).map(c => c.file).filter(f => !!f)]. *)
Definition individualFiles (content : list (string * Supplement))
  : list File :=
  GeminiService.choose (fun entry => file (snd entry)) content.

(** [Object.values(supplementalContent).map(c => c.text).filter(t => !!t)]. *)
Definition individualTexts (content : list (string * Supplement))
  : list string :=
  GeminiService.choose
    (fun entry =>
       match text (snd entry) with
       | Some t => if Js.truthy t then Some t else None
       | None => None
       end)
    content.

(** The context built for the resubmission. *)
Definition newContext (last : LearningContext) (st : State)
  : LearningContext :=
  let allSupplementalPdfs :=
    (supplementalBulkPdfs st ++ individualFiles (supplementalContent st))%list
  in
  let allPastedTexts := individualTexts (supplementalContent st) in
  {| urls := urls last;
     pdfFiles :=
       Some ((match pdfFiles last with Some fs => fs | None => [] end)
             ++ allSupplementalPdfs)%list;
     pastedTexts := Some allPastedTexts;
     searchQuery := searchQuery last;
     focusTopic := focusTopic last;
     model := model last |}.

(** The guards of [handlePdfSubmission]: the context it hands to
    [handleStartLearning], or the error it sets. *)
Definition resubmission (st : State) : string + LearningContext :=
  match lastLearningContext st with
  | None => inl lostContextMessage
  | Some last =>
      let hasIndividualContent :=
        (0 <? List.length (supplementalContent st))%nat in
      let hasBulkContent :=
        (0 <? List.length (supplementalBulkPdfs st))%nat in
      if negb hasIndividualContent && negb hasBulkContent
      then inl nothingToSubmitMessage
      else inr (newContext last st)
  end.

Definition handlePdfSubmission (st : State) : State :=
  match resubmission st with
  | inl message => setError message st
  | inr context =>
      handleStartLearning
        (setCurrentPastedText EmptyString
           (setPastingForUrl None
              (setSupplementalBulkPdfs [] (setSupplementalContent [] st))))
        context
  end.

End Handlers.

End App.

(** ** Sample inputs *)

Module Sample.

Import Js GeminiService.

Definition key : option string := Some "k".

(** A context with one URL and nothing else. *)
Definition urlOnly : Context :=
  {| urls := Some ["https://x.org/a"];
     pdfs := None;
     pastedTexts := None;
     searchQuery := None;
     focusTopic := None;
     model := "gemini-2.5-pro" |}.

(** A context with one URL and a search query. *)
Definition urlAndSearch : Context :=
  {| urls := Some ["https://x.org/a"];
     pdfs := None;
     pastedTexts := None;
     searchQuery := Some "foo";
     focusTopic := None;
     model := "gemini-2.5-pro" |}.

(** A backend that answers every request with the same reply. *)
Definition replying (response : Genai.GenerateContentResponse)
    (_ : Request) : completion BackendFailure Genai.GenerateContentResponse :=
  Returned response.


Definition textOnly (text : string) : Genai.GenerateContentResponse :=
  Genai.mkResponse (Some text) None None.

(** [JSON.parse] on the one text [text], whose value is [value]; any
    other text is answered with a SyntaxError. *)
Definition parsing (text : string) (value : json) (input : string)
  : completion string json :=
  if (input =? text)%string then Returned value
  else Threw "Unexpected token".

(** The platform's URL parser on the absolute [http] and [https] URLs
    that are in normal form already (scheme and host in lower case, a
    path, nothing to encode): the serialization is the text up to the
    first number sign, the fragment what follows that sign. *)
Definition parseUrl (url : string) : option Url.URL :=
  Some
    (Url.mkURL (takeWhile (fun c => negb (c =? "#")%char) url)
       (match dropWhile (fun c => negb (c =? "#")%char) url with
        | String _ f => Some f
        | EmptyString => None
        end)).

(** The reply that asks for one document, as JSON text and as parsed. *)
Definition escalationReply : string :=
  "{" ++ dquote ++ "missing_pdfs" ++ dquote ++ ":[" ++ dquote ++
  "https://x.org/a.pdf" ++ dquote ++ "]}".

Definition escalationValue : json :=
  JObject [("missing_pdfs", JArray [JString "https://x.org/a.pdf"])].

(** A session with two rounds of missing documents. The form starts a
    lesson from a search query; the service asks for a first document,
    for which a text is pasted and submitted; the service then asks for
    a second document, for which a text is pasted, with a file added in
    bulk. *)
Definition fromForm : App.LearningContext :=
  {| App.urls := [];
     App.pdfFiles := Some [];
     App.pastedTexts := None;
     App.searchQuery := "foo";
     App.focusTopic := EmptyString;
     App.model := "gemini-2.5-pro" |}.

Definition bulkFile : App.File :=
  App.mkFile "bulk.pdf" "application/pdf" "YnVsaw==".

(** A service that asks for the document [url], whatever it is given. *)
Definition asking (url : string) (_ : Context) : result Lesson :=
  Threw (MissingPdfError missingPdfMessage [JString url]).

Definition firstRound : App.State :=
  App.handleStartLearning key (asking "https://x.org/1.pdf")
    App.initialState fromForm.

Definition firstAnswered : App.State :=
  App.handleSavePastedText
    (App.setCurrentPastedText "text of the first document"
       (App.setPastingForUrl (Some "https://x.org/1.pdf") firstRound))
    "https://x.org/1.pdf".

Definition secondRound : App.State :=
  App.handlePdfSubmission key (asking "https://x.org/2.pdf") firstAnswered.

Definition secondAnswered : App.State :=
  App.setSupplementalBulkPdfs [bulkFile]
    (App.handleSavePastedText
       (App.setCurrentPastedText "text of the second document"
          (App.setPastingForUrl (Some "https://x.org/2.pdf") secondRound))
       "https://x.org/2.pdf").

End Sample.

(* ================================================================== *)
(** * Part II. Properties *)
(* ================================================================== *)

Example numberToString_examples :
  Js.numberToString 0 = "0" /\ Js.numberToString 12 = "12" /\
  Js.natToString 3 = "3".
Proof. repeat split; reflexivity. Qed.

Example formatCitations_example :
  ChatSection.formatCitations "a [1] b [2] c [0] d [x] [03"
    (Some [mkSource "u1" "t1"]) =
  Some ("a " ++ ChatSection.citationLink (mkSource "u1" "t1") 1 ++
        " b [2] c [0] d [x] [03").
Proof. vm_compute. reflexivity. Qed.

Unset Implicit Arguments.

#[local] Arguments Ascii.eqb : simpl never.

(** ** Strings *)

Section StringFacts.

Lemma append_assoc (a b c : string) : (a ++ b) ++ c = a ++ (b ++ c).
Proof. induction a as [|x a IH]; simpl; [reflexivity | now rewrite IH]. Qed.

Lemma append_empty_r (a : string) : a ++ EmptyString = a.
Proof. induction a as [|x a IH]; simpl; [reflexivity | now rewrite IH]. Qed.

Lemma length_append (a b : string) :
  String.length (a ++ b) = String.length a + String.length b.
Proof. induction a as [|x a IH]; simpl; [reflexivity | now rewrite IH]. Qed.

Lemma drop_append (a b : string) : Js.drop (String.length a) (a ++ b) = b.
Proof. induction a as [|x a IH]; simpl; [now destruct b | exact IH]. Qed.

Lemma startsWith_append (a b : string) : Js.startsWith a (a ++ b) = true.
Proof.
  induction a as [|x a IH]; simpl; [reflexivity |].
  now rewrite Ascii.eqb_refl.
Qed.

Lemma takeWhile_dropWhile (p : ascii -> bool) (s : string) :
  Js.takeWhile p s ++ Js.dropWhile p s = s.
Proof.
  induction s as [|c t IH]; simpl; [reflexivity |].
  destruct (p c); simpl; [now rewrite IH | reflexivity].
Qed.

Lemma takeWhile_all (p : ascii -> bool) (s : string) :
  Js.allOf p (Js.takeWhile p s) = true.
Proof.
  induction s as [|c t IH]; simpl; [reflexivity |].
  destruct (p c) eqn:E; simpl; [now rewrite E | reflexivity].
Qed.

(** A run of the class followed by a code unit outside it is split
    where the run ends. *)
Lemma takeWhile_stop (p : ascii -> bool) (a : string) (c : ascii) (b : string) :
  Js.allOf p a = true -> p c = false ->
  Js.takeWhile p (a ++ String c b) = a /\
  Js.dropWhile p (a ++ String c b) = String c b.
Proof.
  intros Ha Hc. induction a as [|x a IH]; simpl in *.
  - now rewrite Hc.
  - apply andb_true_iff in Ha as [Hx Ha]. rewrite Hx.
    destruct (IH Ha) as [-> ->]. now split.
Qed.

(** Text appended behind a code unit outside the class leaves the
    leading run as it is. *)
Lemma takeWhile_append_stop (p : ascii -> bool) (t : string) (c : ascii)
    (y : string) :
  p c = false ->
  Js.takeWhile p (t ++ String c y) = Js.takeWhile p t /\
  Js.dropWhile p (t ++ String c y) = Js.dropWhile p t ++ String c y.
Proof.
  intros Hc. induction t as [|x t [IH1 IH2]]; simpl.
  - now rewrite Hc.
  - destruct (p x); [now rewrite IH1, IH2 | now split].
Qed.

End StringFacts.

(** ** Matchers *)

Section MatcherFacts.

Variable R : Type.

(** When the continuation cannot succeed in front of a code unit of the
    class, only the longest run can lead to a match. *)
Lemma star_greedy_longest (p : ascii -> bool) (s : string)
    (k : string -> string -> option R) :
  (forall m c t, p c = true -> k m (String c t) = None) ->
  Re.star_greedy p s k = k (Js.takeWhile p s) (Js.dropWhile p s).
Proof.
  revert k. induction s as [|c t IH]; intros k Hk; simpl; [reflexivity |].
  destruct (p c) eqn:E; [| reflexivity].
  rewrite IH by (intros; now apply Hk).
  destruct (k (String c (Js.takeWhile p t)) (Js.dropWhile p t)) eqn:K;
    [reflexivity |].
  now apply Hk.
Qed.

Lemma lit_mismatch (x y : ascii) (l t : string) (k : string -> option R) :
  x <> y -> Re.lit (String x l) (String y t) k = None.
Proof.
  intros H. unfold Re.lit. simpl.
  now apply Ascii.eqb_neq in H as ->.
Qed.

(** A literal of one code unit. *)
Lemma lit_char (x : ascii) (s : string) (k : string -> option R) :
  Re.lit (String x EmptyString) s k =
  match s with
  | String c t => if (x =? c)%char then k t else None
  | EmptyString => None
  end.
Proof.
  unfold Re.lit. destruct s as [|c t]; [reflexivity |].
  simpl. now destruct (x =? c)%char.
Qed.

End MatcherFacts.

(** ** The citation formatter *)

Section Citations.

Import ChatSection.

(** What [citationRe] decides at a position, read off the text. *)
Lemma citationRe_decided (prev : option ascii) (s : string) :
  citationRe prev s =
  match s with
  | String c u =>
      if ("[" =? c)%char then
        match Js.takeWhile Js.isDigit u, Js.dropWhile Js.isDigit u with
        | String d ds, String e _ =>
            if ("]" =? e)%char
            then Some (String.length (String d ds) + 2, String d ds)
            else None
        | _, _ => None
        end
      else None
  | EmptyString => None
  end.
Proof.
  unfold citationRe. rewrite lit_char.
  destruct s as [|c u]; [reflexivity |].
  destruct ("[" =? c)%char; [| reflexivity].
  unfold Re.plus_greedy, Re.one.
  destruct u as [|d u]; [reflexivity |].
  simpl Js.takeWhile. simpl Js.dropWhile.
  destruct (Js.isDigit d) eqn:D; [| reflexivity].
  rewrite star_greedy_longest.
  - rewrite lit_char.
    destruct (Js.dropWhile Js.isDigit u) as [|e r]; reflexivity.
  - intros m x t Hx. apply lit_mismatch.
    intros <-. discriminate Hx.
Qed.

Lemma citationRe_hit (prev : option ascii) (digits rest : string) :
  Js.allOf Js.isDigit digits = true -> digits <> EmptyString ->
  citationRe prev ("[" ++ digits ++ "]" ++ rest) =
  Some (String.length digits + 2, digits).
Proof.
  intros Hd Hne. rewrite citationRe_decided. simpl.
  destruct (takeWhile_stop Js.isDigit digits "]"%char rest Hd eq_refl)
    as [-> ->].
  destruct digits as [|d ds]; [contradiction | reflexivity].
Qed.

Lemma citationRe_within (prev : option ascii) (s : string) (n : nat)
    (digits : string) :
  citationRe prev s = Some (n, digits) ->
  exists rest,
    s = "[" ++ digits ++ "]" ++ rest /\ n = String.length digits + 2.
Proof.
  rewrite citationRe_decided. destruct s as [|c u]; [discriminate |].
  destruct ("[" =? c)%char eqn:Ec; [| discriminate].
  apply Ascii.eqb_eq in Ec. subst c.
  pose proof (takeWhile_dropWhile Js.isDigit u) as Hu.
  destruct (Js.takeWhile Js.isDigit u) as [|d ds]; [discriminate |].
  destruct (Js.dropWhile Js.isDigit u) as [|e r]; [discriminate |].
  destruct ("]" =? e)%char eqn:Ee; [| discriminate].
  apply Ascii.eqb_eq in Ee. subst e.
  intros H. inversion H. subst. exists r. split; reflexivity.
Qed.

(** A match that starts before an opening bracket ends before it. *)
Lemma citationRe_extend (prev : option ascii) (c : ascii) (t y : string) :
  citationRe prev (String c t ++ String "[" y) = citationRe prev (String c t).
Proof.
  rewrite !citationRe_decided. simpl append. cbv iota.
  destruct ("[" =? c)%char; [| reflexivity].
  destruct (takeWhile_append_stop Js.isDigit t "["%char y eq_refl)
    as [-> ->].
  destruct (Js.takeWhile Js.isDigit t) as [|d ds]; [reflexivity |].
  destruct (Js.dropWhile Js.isDigit t) as [|e r]; reflexivity.
Qed.

Lemma scan_citations_prev (s : string) (p1 p2 : option ascii) (skip : nat) :
  Re.scan_from citationRe p1 skip s = Re.scan_from citationRe p2 skip s.
Proof. destruct s; reflexivity. Qed.

Lemma scan_citations_prefix (pre : string) :
  forall (prev : option ascii) (skip : nat) (y : string),
    skip <= String.length pre ->
    Re.scan_from citationRe prev skip (pre ++ String "[" y) =
    (Re.scan_from citationRe prev skip pre ++
     Re.scan_from citationRe None 0 (String "[" y))%list.
Proof.
  induction pre as [|c t IH]; intros prev skip y Hskip.
  - simpl in Hskip. assert (skip = 0) as -> by lia.
    apply scan_citations_prev.
  - simpl append. cbn [Re.scan_from]. destruct skip as [|n].
    + change (String c (t ++ String "[" y)) with (String c t ++ String "[" y).
      rewrite citationRe_extend.
      destruct (citationRe prev (String c t)) as [[n digits]|] eqn:E.
      * assert (Hlen : n - 1 <= String.length t).
        { apply citationRe_within in E as (rest & Hs & Hn).
          apply (f_equal String.length) in Hs. simpl in Hs.
          rewrite length_append in Hs. simpl in Hs. lia. }
        destruct n as [|n]; rewrite IH by (simpl in Hlen; lia); reflexivity.
      * rewrite IH by lia. reflexivity.
    + simpl in Hskip. apply IH. lia.
Qed.

Lemma scan_citations_skip (u : string) :
  forall (prev : option ascii) (post : string),
    Re.scan_from citationRe prev (String.length u) (u ++ post) =
    Re.scan_from citationRe None 0 post.
Proof.
  induction u as [|c u IH]; intros prev post.
  - apply scan_citations_prev.
  - simpl. apply IH.
Qed.

(** The scan of a text around a marker: the scan of what precedes it,
    the marker, and the scan of what follows it. *)
Lemma scan_citations_marker (pre digits post : string) :
  Js.allOf Js.isDigit digits = true -> digits <> EmptyString ->
  Re.scan citationRe (pre ++ "[" ++ digits ++ "]" ++ post) =
  (Re.scan citationRe pre ++ Re.Hit digits :: Re.scan citationRe post)%list.
Proof.
  intros Hd Hne. unfold Re.scan. simpl append.
  rewrite scan_citations_prefix by lia. f_equal.
  cbn [Re.scan_from].
  change (String "[" (digits ++ String "]" post))
    with ("[" ++ digits ++ "]" ++ post).
  rewrite (citationRe_hit None digits post Hd Hne).
  replace (String.length digits + 2) with (S (String.length (digits ++ "]")))
    by (rewrite length_append; simpl; lia).
  f_equal.
  change (String "]" post) with ("]" ++ post).
  rewrite <- append_assoc. apply scan_citations_skip.
Qed.

Lemma replaceWith_app (X : Type) (f : X -> option string)
    (a b : list (Re.token X)) :
  Re.replaceWith f (a ++ b) =
  match Re.replaceWith f a, Re.replaceWith f b with
  | Some x, Some y => Some (x ++ y)
  | _, _ => None
  end.
Proof.
  induction a as [|[c|x] a IH]; simpl.
  - now destruct (Re.replaceWith f b).
  - rewrite IH.
    destruct (Re.replaceWith f a), (Re.replaceWith f b); reflexivity.
  - rewrite IH.
    destruct (f x), (Re.replaceWith f a), (Re.replaceWith f b);
      try reflexivity.
    now rewrite append_assoc.
Qed.

Lemma replaceWith_total (X : Type) (f : X -> option string)
    (ts : list (Re.token X)) :
  (forall x, exists y, f x = Some y) ->
  exists out, Re.replaceWith f ts = Some out.
Proof.
  intros Hf. induction ts as [|[c|x] ts [out IH]]; simpl.
  - now eexists.
  - rewrite IH. now eexists.
  - destruct (Hf x) as [y ->]. rewrite IH. now eexists.
Qed.

(** A marker in range resolves to the source at its index minus one,
    which exists. *)
Lemma citationCallback_in_range (srcs : list GroundingSource)
    (numberStr : string) :
  (1 <= Js.parseInt numberStr <= N.of_nat (List.length srcs))%N ->
  exists source,
    nth_error srcs (N.to_nat (Js.parseInt numberStr - 1)) = Some source /\
    citationCallback srcs numberStr =
    Some (citationLink source (Js.parseInt numberStr)).
Proof.
  intros [Hlo Hhi]. unfold citationCallback.
  replace (0 <? Js.parseInt numberStr)%N with true
    by (symmetry; apply N.ltb_lt; lia).
  replace (Js.parseInt numberStr <=? N.of_nat (List.length srcs))%N with true
    by (symmetry; apply N.leb_le; lia).
  simpl andb. cbv iota.
  destruct (nth_error srcs (N.to_nat (Js.parseInt numberStr - 1)))
    as [source|] eqn:E.
  - now exists source.
  - apply nth_error_None in E. lia.
Qed.

Lemma citationCallback_out_of_range (srcs : list GroundingSource)
    (numberStr : string) :
  ~ (1 <= Js.parseInt numberStr <= N.of_nat (List.length srcs))%N ->
  citationCallback srcs numberStr = Some ("[" ++ numberStr ++ "]").
Proof.
  intros H. unfold citationCallback.
  destruct (0 <? Js.parseInt numberStr)%N eqn:Hlo; [| reflexivity].
  destruct (Js.parseInt numberStr <=? N.of_nat (List.length srcs))%N eqn:Hhi;
    [| reflexivity].
  apply N.ltb_lt in Hlo. apply N.leb_le in Hhi. exfalso. apply H. lia.
Qed.

Lemma citationCallback_total (srcs : list GroundingSource)
    (numberStr : string) :
  exists out, citationCallback srcs numberStr = Some out.
Proof.
  destruct (N.le_gt_cases 1 (Js.parseInt numberStr)) as [Hlo|Hlo];
    [destruct (N.le_gt_cases (Js.parseInt numberStr)
                 (N.of_nat (List.length srcs))) as [Hhi|Hhi] |].
  - destruct (citationCallback_in_range srcs numberStr (conj Hlo Hhi))
      as (source & _ & ->). now eexists.
  - rewrite citationCallback_out_of_range by lia. now eexists.
  - rewrite citationCallback_out_of_range by lia. now eexists.
Qed.

Lemma formatCitations_nonempty (text : string) (s0 : GroundingSource)
    (srcs : list GroundingSource) :
  formatCitations text (Some (s0 :: srcs)) =
  Re.replaceWith (citationCallback (s0 :: srcs)) (Re.scan citationRe text).
Proof. reflexivity. Qed.

Lemma formatCitations_total (text : string)
    (sources : option (list GroundingSource)) :
  exists out, formatCitations text sources = Some out.
Proof.
  destruct sources as [[|s0 srcs]|]; try (now eexists).
  rewrite formatCitations_nonempty.
  apply replaceWith_total. intros x. apply citationCallback_total.
Qed.

(** The replacement of one marker among a list of sources. *)
Lemma citationCallback_cases (srcs : list GroundingSource)
    (digits : string) :
  exists replacement,
    citationCallback srcs digits = Some replacement /\
    ((1 <= Js.parseInt digits <= N.of_nat (List.length srcs))%N ->
     exists source,
       nth_error srcs (N.to_nat (Js.parseInt digits - 1)) = Some source /\
       replacement = citationLink source (Js.parseInt digits)) /\
    (~ (1 <= Js.parseInt digits <= N.of_nat (List.length srcs))%N ->
     replacement = "[" ++ digits ++ "]").
Proof.
  destruct (N.le_gt_cases 1 (Js.parseInt digits)) as [Hlo|Hlo];
    [destruct (N.le_gt_cases (Js.parseInt digits)
                 (N.of_nat (List.length srcs))) as [Hhi|Hhi] |].
  - destruct (citationCallback_in_range srcs digits (conj Hlo Hhi))
      as (source & Hnth & Hcb).
    eexists. split; [exact Hcb |]. split.
    + intros _. now exists source.
    + intros H. exfalso. apply H. now split.
  - eexists. split; [apply citationCallback_out_of_range; lia |]. split.
    + intros [_ H]. lia.
    + reflexivity.
  - eexists. split; [apply citationCallback_out_of_range; lia |]. split.
    + intros [H _]. lia.
    + reflexivity.
Qed.

(** ** The number a marker holds *)

(** A decimal numeral is made of digits, and [parseInt] reads it as the
    number it denotes. *)
Lemma parse_decimal (digits : string) :
  forall (u : Decimal.uint),
    NilEmpty.uint_of_string digits = Some u ->
    Js.allOf Js.isDigit digits = true /\
    forall acc : N,
      Js.parseDigits acc digits =
      match acc with
      | N0 => N.of_uint u
      | Npos p => Npos (Pos.of_uint_acc u p)
      end.
Proof.
  induction digits as [|c t IH]; intros u H.
  - inversion H. split; [reflexivity |]. now intros [|p].
  - cbn [NilEmpty.uint_of_string] in H.
    destruct (NilEmpty.uint_of_string t) as [u'|]; [| discriminate].
    destruct (IH u' eq_refl) as [Hd Hp].
    assert (Hzero : forall p, (N.pos p * 10 + 0)%N = N.pos (10 * p))
      by (intros; lia).
    assert (Hstep : forall p d, (N.pos p * 10 + N.pos d)%N = N.pos (d + 10 * p))
      by (intros; lia).
    destruct c as [[] [] [] [] [] [] [] []]; try discriminate H;
      inversion H; subst u;
      (split;
       [ cbn [Js.allOf]; rewrite Hd; reflexivity
       | intros [|p]; cbn [Js.parseDigits]; rewrite Hp;
         [ reflexivity
         | match goal with
           | |- context [Js.digitValue ?c] =>
               let v := eval vm_compute in (Js.digitValue c) in
               change (Js.digitValue c) with v
           end;
           rewrite ?Hzero, ?Hstep; reflexivity ] ]).
Qed.

Lemma parseInt_decimal (digits : string) (u : Decimal.uint) :
  NilZero.uint_of_string digits = Some u ->
  Js.allOf Js.isDigit digits = true /\ digits <> EmptyString /\
  Js.parseInt digits = N.of_uint u.
Proof.
  destruct digits as [|c t]; [discriminate |].
  intros H. destruct (parse_decimal (String c t) u H) as [Hd Hp].
  split; [exact Hd |]. split; [discriminate |]. apply (Hp N0).
Qed.

(** Every non-empty text made of digits is a decimal numeral. *)
Lemma digits_denote (digits : string) :
  Js.allOf Js.isDigit digits = true -> digits <> EmptyString ->
  exists u, NilZero.uint_of_string digits = Some u.
Proof.
  intros Hd Hne.
  assert (H : exists u, NilEmpty.uint_of_string digits = Some u).
  { clear Hne. induction digits as [|c t IH]; [now eexists |].
    cbn [Js.allOf] in Hd. apply andb_true_iff in Hd as [Hc Ht].
    destruct (IH Ht) as [u' Hu]. cbn [NilEmpty.uint_of_string]. rewrite Hu.
    destruct c as [[] [] [] [] [] [] [] []]; try discriminate Hc;
      now eexists. }
  destruct digits; [contradiction | exact H].
Qed.

(** A match of [citationRe] is a marker at the head of the text. *)
Lemma citationRe_marker (prev : option ascii) (s : string) (n : nat)
    (digits : string) :
  citationRe prev s = Some (n, digits) ->
  exists rest u,
    s = "[" ++ digits ++ "]" ++ rest /\
    NilZero.uint_of_string digits = Some u.
Proof.
  intros H. destruct (citationRe_within _ _ _ _ H) as (rest & Hs & _).
  rewrite citationRe_decided in H. destruct s as [|c x]; [discriminate |].
  destruct ("[" =? c)%char; [| discriminate].
  pose proof (takeWhile_all Js.isDigit x) as Ha.
  destruct (Js.takeWhile Js.isDigit x) as [|d ds]; [discriminate |].
  destruct (Js.dropWhile Js.isDigit x) as [|e r]; [discriminate |].
  destruct ("]" =? e)%char; [| discriminate].
  inversion H. subst digits.
  destruct (digits_denote (String d ds) Ha) as [u Hu]; [discriminate |].
  now exists rest, u.
Qed.

(** A text without markers is scanned into its code units, and the
    replacement puts them together again. *)
Lemma replace_no_marker (srcs : list GroundingSource) (text : string) :
  forall prev : option ascii,
    (forall pre digits post u,
       text = pre ++ "[" ++ digits ++ "]" ++ post ->
       NilZero.uint_of_string digits <> Some u) ->
    Re.replaceWith (citationCallback srcs)
      (Re.scan_from citationRe prev 0 text) = Some text.
Proof.
  induction text as [|c t IH]; intros prev Hno.
  - reflexivity.
  - cbn [Re.scan_from].
    destruct (citationRe prev (String c t)) as [[n digits]|] eqn:E.
    + apply citationRe_marker in E as (rest & u & Hs & Hu).
      exfalso. exact (Hno EmptyString digits rest u Hs Hu).
    + cbn [Re.replaceWith]. rewrite IH; [reflexivity |].
      intros pre digits post u ->.
      exact (Hno (String c pre) digits post u eq_refl).
Qed.

(** A text without an opening bracket holds no marker. *)
Lemma no_bracket_no_marker (text : string) :
  Js.lacks "[" text = true ->
  forall pre digits post u,
    text = pre ++ "[" ++ digits ++ "]" ++ post ->
    NilZero.uint_of_string digits <> Some u.
Proof.
  intros H pre digits post u E _. subst text.
  induction pre as [|c pre IH]; [discriminate H |].
  simpl in H. apply andb_true_iff in H as [_ H]. now apply IH.
Qed.

End Citations.

(** C9. The citation formatter. Without sources, or with an empty list
    of them, the text is returned as it is. The formatter never fails,
    whatever the text and the sources. A text that holds no marker, an
    opening bracket, a decimal numeral and a closing bracket, is
    returned as it is. A marker in a text is replaced independently of
    what surrounds it, and what precedes and what follows it are
    formatted on their own. With [k] the number the numeral denotes, the
    marker is replaced by the anchor written out below, for the source
    at index [k - 1], which exists, when [1 <= k <= length], and by
    itself in every other case, [k = 0] and [k > length] included. The
    anchor shows [k] in decimal notation without leading zeros. *)
Theorem formatCitations_resolves_markers_in_range :
  (forall text,
     ChatSection.formatCitations text None = Some text /\
     ChatSection.formatCitations text (Some []) = Some text) /\
  (forall text sources,
     exists out, ChatSection.formatCitations text sources = Some out) /\
  (forall text sources,
     (forall pre digits post u,
        text = pre ++ "[" ++ digits ++ "]" ++ post ->
        NilZero.uint_of_string digits <> Some u) ->
     ChatSection.formatCitations text sources = Some text) /\
  (forall sources pre digits post u,
     NilZero.uint_of_string digits = Some u ->
     let k := N.of_uint u in
     let srcs := match sources with Some l => l | None => [] end in
     let q := String (ascii_of_nat 34) EmptyString in
     exists outPre outPost replacement,
       ChatSection.formatCitations pre sources = Some outPre /\
       ChatSection.formatCitations post sources = Some outPost /\
       ChatSection.formatCitations (pre ++ "[" ++ digits ++ "]" ++ post) sources
       = Some (outPre ++ replacement ++ outPost) /\
       ((1 <= k <= N.of_nat (List.length srcs))%N ->
        exists source,
          nth_error srcs (N.to_nat (k - 1)) = Some source /\
          replacement =
          "<sup class=" ++ q ++ "font-medium text-sky-400" ++ q ++
          "><a href=" ++ q ++ uri source ++ q ++
          " target=" ++ q ++ "_blank" ++ q ++
          " rel=" ++ q ++ "noopener noreferrer" ++ q ++
          " title=" ++ q ++
          (match title source with
           | EmptyString => uri source
           | String _ _ => title source
           end) ++ q ++
          " class=" ++ q ++ "no-underline hover:underline" ++ q ++
          ">[" ++ NilZero.string_of_uint (N.to_uint k) ++ "]</a></sup>") /\
       (~ (1 <= k <= N.of_nat (List.length srcs))%N ->
        replacement = "[" ++ digits ++ "]")).
Proof.
  split; [| split; [| split]].
  - intros text. split; reflexivity.
  - apply formatCitations_total.
  - intros text [[|s0 rest]|] Hno; try reflexivity.
    rewrite formatCitations_nonempty. now apply replace_no_marker.
  - intros sources pre digits post u Hu k srcs q.
    destruct (parseInt_decimal digits u Hu) as (Hd & Hne & Hk).
    fold k in Hk.
    assert (Hnone : ~ (1 <= k <= N.of_nat (@List.length GroundingSource []))%N)
      by (intros [H1 H2]; simpl in H2; lia).
    assert (Hsame : pre ++ "[" ++ digits ++ "]" ++ post =
                    pre ++ ("[" ++ digits ++ "]") ++ post)
      by (simpl; now rewrite append_assoc).
    destruct sources as [[|s0 rest]|]; subst srcs.
    + exists pre, post, ("[" ++ digits ++ "]").
      split; [reflexivity |]. split; [reflexivity |].
      split; [cbn [ChatSection.formatCitations]; now rewrite Hsame |].
      split; [intros H; now apply Hnone in H | reflexivity].
    + destruct (formatCitations_total pre (Some (s0 :: rest))) as [outPre Hpre].
      destruct (formatCitations_total post (Some (s0 :: rest)))
        as [outPost Hpost].
      destruct (citationCallback_cases (s0 :: rest) digits)
        as (replacement & Hcb & Hin & Hout).
      rewrite Hk in Hin, Hout.
      exists outPre, outPost, replacement.
      split; [exact Hpre |]. split; [exact Hpost |].
      split; [| split].
      * rewrite formatCitations_nonempty in *.
        rewrite (scan_citations_marker pre digits post Hd Hne), replaceWith_app.
        rewrite Hpre. simpl. now rewrite Hcb, Hpost.
      * intros Hr. destruct (Hin Hr) as (source & Hnth & ->).
        exists source. split; [exact Hnth |].
        unfold ChatSection.citationLink, Js.numberToString, Js.dquote, q.
        now destruct (title source).
      * exact Hout.
    + exists pre, post, ("[" ++ digits ++ "]").
      split; [reflexivity |]. split; [reflexivity |].
      split; [cbn [ChatSection.formatCitations]; now rewrite Hsame |].
      split; [intros H; now apply Hnone in H | reflexivity].
Qed.

Lemma formatCitations_resolves_markers_in_range_witness :
  ChatSection.formatCitations "Nothing to resolve ] here."
    (Some [mkSource "u1" "A"; mkSource "u2" EmptyString])
  = Some "Nothing to resolve ] here." /\
  NilZero.uint_of_string "02" = Some (Decimal.D0 (Decimal.D2 Decimal.Nil)) /\
  ChatSection.formatCitations ("See " ++ "[" ++ "02" ++ "]" ++ " and [7], [0].")
    (Some [mkSource "u1" "A"; mkSource "u2" EmptyString])
  = Some
      (let q := String (ascii_of_nat 34) EmptyString in
       "See <sup class=" ++ q ++ "font-medium text-sky-400" ++ q ++
       "><a href=" ++ q ++ "u2" ++ q ++ " target=" ++ q ++ "_blank" ++ q ++
       " rel=" ++ q ++ "noopener noreferrer" ++ q ++ " title=" ++ q ++ "u2" ++
       q ++ " class=" ++ q ++ "no-underline hover:underline" ++ q ++
       ">[2]</a></sup> and [7], [0].").
Proof.
  split;
    [apply (proj1 (proj2 (proj2 formatCitations_resolves_markers_in_range)));
     now apply no_bracket_no_marker |].
  split; [reflexivity |].
  destruct (proj2 (proj2 (proj2 formatCitations_resolves_markers_in_range))
              (Some [mkSource "u1" "A"; mkSource "u2" EmptyString])
              "See " "02" " and [7], [0]."
              (Decimal.D0 (Decimal.D2 Decimal.Nil)) eq_refl)
    as (outPre & outPost & replacement & Hpre & Hpost & Hall & Hin & _).
  destruct Hin as (source & Hnth & Hrep);
    [vm_compute; split; discriminate |].
  vm_compute in Hnth. inversion Hnth. subst source.
  vm_compute in Hpre. inversion Hpre. subst outPre.
  vm_compute in Hpost. inversion Hpost. subst outPost.
  rewrite Hall, Hrep. reflexivity.
Defined.


(** ** The response parser *)

Section Parser.

Import Js GeminiService.

(** The only escalation: an object whose [missing_pdfs] is a non-empty
    array; the error carries the elements of that array. *)
Lemma classify_escalation (parsedResponse : json)
    (sources : list GroundingSource) (message : string) (urls : list json) :
  classify parsedResponse sources = Threw (MissingPdfError message urls) <->
  exists properties,
    parsedResponse = JObject properties /\
    lookup "missing_pdfs" properties = Some (JArray urls) /\
    urls <> [] /\ message = missingPdfMessage.
Proof.
  unfold classify. split.
  - destruct parsedResponse as [| b | n | s | l | properties];
      simpl; try discriminate.
    destruct (lookup "missing_pdfs" properties) as [v|] eqn:L;
      [| discriminate].
    destruct v as [| b | n | s | l | ps]; simpl;
      try discriminate;
      try (destruct b; discriminate);
      try (destruct (numberTruthy n); discriminate);
      try (destruct (truthy s); discriminate).
    destruct l as [|u us]; simpl; [discriminate |].
    intros H. inversion H. subst.
    exists properties.
    split; [reflexivity |]. split; [exact L |].
    split; [discriminate | reflexivity].
  - intros (properties & -> & L & Hne & ->). simpl. rewrite L.
    destruct urls as [|u us]; [contradiction | reflexivity].
Qed.

(** An array is returned as the sections, whatever its elements. *)
Lemma classify_array (sections : list json) (sources : list GroundingSource) :
  classify (JArray sections) sources = Returned (sections, sources).
Proof. reflexivity. Qed.

Lemma extractJson_no_escalation (responseText : string)
    (message : string) (urls : list json) :
  extractJson responseText <> Threw (MissingPdfError message urls).
Proof.
  unfold extractJson.
  destruct (Re.search fenceRe responseText) as [[skipped group2]|];
    [destruct (truthy group2); [discriminate |] |];
    destruct (Re.search rawJsonRe responseText) as [[skipped' whole]|];
    discriminate.
Qed.

Lemma jsonText_no_escalation (search : bool) (responseText : option string)
    (message : string) (urls : list json) :
  jsonText search responseText <> Threw (MissingPdfError message urls).
Proof.
  unfold jsonText. destruct search; [| discriminate].
  destruct responseText; [apply extractJson_no_escalation | discriminate].
Qed.

Lemma compileRequest_no_escalation (context : Context)
    (message : string) (urls : list json) :
  compileRequest context <> Threw (MissingPdfError message urls).
Proof.
  unfold compileRequest.
  destruct (addUrls context ([], [])) as [descs1 tools1].
  destruct (addPdfs context (descs1, [])) as [descs2 parts2].
  destruct (addPastedTexts context (descs2, parts2)) as [descs3 parts3].
  destruct (addSearch context (descs3, tools1)) as [[|d ds] tools4];
    discriminate.
Qed.

Lemma rethrow_escalation (error : thrown) (message : string)
    (urls : list json) :
  rethrow error = MissingPdfError message urls <->
  error = MissingPdfError message urls.
Proof.
  destruct error as [m u|cls m]; simpl; [tauto |].
  destruct (instanceofError cls && includes "SAFETY" m);
    [| destruct (instanceofSyntaxError cls)]; split; discriminate.
Qed.

Variable API_KEY : option string.
Variable generateContent :
  Request -> completion BackendFailure Genai.GenerateContentResponse.
Variable JSON_parse : string -> completion string json.

(** The [try] block, once the reply, the text to parse and the parsed
    value are known. *)
Lemma generateLesson_parsed (req : Request)
    (response : Genai.GenerateContentResponse) (responseText : string)
    (parsedResponse : json) :
  generateContent req = Returned response ->
  jsonText (useGoogleSearch req) (Genai.text response) = Returned responseText ->
  JSON_parse responseText = Returned parsedResponse ->
  generateLesson generateContent JSON_parse req =
  classify parsedResponse (resolveSources response).
Proof.
  intros Hg Ht Hp. unfold generateLesson, parseAndClassify.
  rewrite Hg. simpl. rewrite Ht. simpl. now rewrite Hp.
Qed.

Lemma generateLesson_escalation (req : Request) (message : string)
    (urls : list json) :
  generateLesson generateContent JSON_parse req =
  Threw (MissingPdfError message urls) <->
  exists response responseText properties,
    generateContent req = Returned response /\
    jsonText (useGoogleSearch req) (Genai.text response) = Returned responseText /\
    JSON_parse responseText = Returned (JObject properties) /\
    lookup "missing_pdfs" properties = Some (JArray urls) /\
    urls <> [] /\ message = missingPdfMessage.
Proof.
  split.
  - unfold generateLesson, parseAndClassify.
    destruct (generateContent req) as [response|[cls m]] eqn:Hg;
      [| discriminate].
    simpl.
    destruct (jsonText (useGoogleSearch req) (Genai.text response))
      as [responseText|e] eqn:Ht;
      [| intros H; simpl in H; inversion H; subst e;
         now apply jsonText_no_escalation in Ht].
    simpl.
    destruct (JSON_parse responseText) as [parsedResponse|e] eqn:Hp;
      [| discriminate].
    simpl. intros H. apply classify_escalation in H
      as (properties & -> & L & Hne & ->).
    now exists response, responseText, properties.
  - intros (response & responseText & properties & Hg & Ht & Hp & L & Hne & ->).
    rewrite (generateLesson_parsed req response responseText _ Hg Ht Hp).
    apply classify_escalation. now exists properties.
Qed.

End Parser.


(** C2. [getTeachingSections] throws the missing-documents escalation
    exactly when the key is configured, a request was compiled, the
    backend replied, and the text handed to the parser parsed to an
    object whose [missing_pdfs] property is a non-empty array; the error
    then carries the elements of that array, in their order. Every other
    parsed value ends in a lesson or in another failure. *)
Theorem missing_documents_escalation_iff :
  forall (API_KEY : option string)
    (generateContent :
       GeminiService.Request ->
       Js.completion GeminiService.BackendFailure Genai.GenerateContentResponse)
    (JSON_parse : string -> Js.completion string GeminiService.json)
    (context : GeminiService.Context) (message : string)
    (urls : list GeminiService.json),
    GeminiService.getTeachingSections API_KEY generateContent JSON_parse context
    = Js.Threw (GeminiService.MissingPdfError message urls) <->
    exists req response responseText properties,
      Js.truthy_opt API_KEY = true /\
      GeminiService.compileRequest context = Js.Returned req /\
      generateContent req = Js.Returned response /\
      GeminiService.jsonText (GeminiService.useGoogleSearch req)
        (Genai.text response) = Js.Returned responseText /\
      JSON_parse responseText =
        Js.Returned (GeminiService.JObject properties) /\
      GeminiService.lookup "missing_pdfs" properties =
        Some (GeminiService.JArray urls) /\
      urls <> [] /\
      message = GeminiService.missingPdfMessage.
Proof.
  intros API_KEY generateContent JSON_parse context message urls.
  unfold GeminiService.getTeachingSections, GeminiService.settle.
  destruct (Js.truthy_opt API_KEY) eqn:K; simpl.
  - destruct (GeminiService.compileRequest context) as [req|e] eqn:C; simpl.
    + destruct (GeminiService.generateLesson generateContent JSON_parse req)
        as [lesson|e] eqn:G.
      * split; [discriminate |].
        intros (req' & response & responseText & properties & _ & Hreq & H).
        inversion Hreq. subst req'.
        assert (E : GeminiService.generateLesson generateContent JSON_parse req =
                    Js.Threw (GeminiService.MissingPdfError message urls))
          by (apply generateLesson_escalation; eauto).
        rewrite G in E. discriminate.
      * split.
        -- intros H.
           assert (H' : GeminiService.rethrow e =
                        GeminiService.MissingPdfError message urls)
             by congruence.
           apply (proj1 (rethrow_escalation _ _ _)) in H'. subst e.
           apply generateLesson_escalation in G
             as (response & responseText & properties & G).
           exists req, response, responseText, properties. tauto.
        -- intros (req' & response & responseText & properties & _ & Hreq & H).
           inversion Hreq. subst req'.
           assert (E : GeminiService.generateLesson generateContent JSON_parse
                         req =
                       Js.Threw (GeminiService.MissingPdfError message urls))
             by (apply generateLesson_escalation; eauto).
           rewrite G in E. inversion E. reflexivity.
    + split.
      * intros H. inversion H. subst e.
        now apply compileRequest_no_escalation in C.
      * intros (req & _ & _ & _ & _ & Hreq & _). discriminate.
  - split; [discriminate |].
    intros (_ & _ & _ & _ & H & _). discriminate.
Qed.

Lemma missing_documents_escalation_iff_witness :
  GeminiService.getTeachingSections Sample.key
    (Sample.replying (Sample.textOnly Sample.escalationReply))
    (Sample.parsing Sample.escalationReply Sample.escalationValue)
    Sample.urlAndSearch
  = Js.Threw
      (GeminiService.MissingPdfError GeminiService.missingPdfMessage
         [GeminiService.JString "https://x.org/a.pdf"]).
Proof.
  apply (proj2 (missing_documents_escalation_iff Sample.key
                  (Sample.replying (Sample.textOnly Sample.escalationReply))
                  (Sample.parsing Sample.escalationReply
                     Sample.escalationValue)
                  Sample.urlAndSearch GeminiService.missingPdfMessage
                  [GeminiService.JString "https://x.org/a.pdf"])).
  eexists. exists (Sample.textOnly Sample.escalationReply).
  exists Sample.escalationReply. eexists.
  split; [reflexivity |]. split; [reflexivity |]. split; [reflexivity |].
  split; [reflexivity |]. split; [reflexivity |]. split; [reflexivity |].
  split; [discriminate | reflexivity].
Defined.

(** C3, as the code has it. An array reply is returned as the sections
    of the lesson, with the sources of the reply, whatever its elements
    are: no element is inspected. *)
Theorem array_reply_returned_without_validation :
  forall (API_KEY : option string)
    (generateContent :
       GeminiService.Request ->
       Js.completion GeminiService.BackendFailure Genai.GenerateContentResponse)
    (JSON_parse : string -> Js.completion string GeminiService.json)
    (context : GeminiService.Context) (req : GeminiService.Request)
    (response : Genai.GenerateContentResponse) (responseText : string)
    (sections : list GeminiService.json),
    Js.truthy_opt API_KEY = true ->
    GeminiService.compileRequest context = Js.Returned req ->
    generateContent req = Js.Returned response ->
    GeminiService.jsonText (GeminiService.useGoogleSearch req)
      (Genai.text response) = Js.Returned responseText ->
    JSON_parse responseText = Js.Returned (GeminiService.JArray sections) ->
    GeminiService.getTeachingSections API_KEY generateContent JSON_parse context
    = Js.Returned (sections, GeminiService.resolveSources response).
Proof.
  intros API_KEY generateContent JSON_parse context req response responseText
    sections K C G T P.
  unfold GeminiService.getTeachingSections, GeminiService.settle.
  rewrite K, C. simpl.
  now rewrite (generateLesson_parsed _ _ req response responseText _ G T P),
    classify_array.
Qed.

Lemma array_reply_returned_without_validation_witness :
  GeminiService.getTeachingSections Sample.key
    (Sample.replying (Sample.textOnly "[{}]"))
    (Sample.parsing "[{}]" (GeminiService.JArray [GeminiService.JObject []]))
    Sample.urlOnly
  = Js.Returned ([GeminiService.JObject []],
                 GeminiService.resolveSources (Sample.textOnly "[{}]")).
Proof.
  eapply array_reply_returned_without_validation;
    [reflexivity | reflexivity | reflexivity | reflexivity | reflexivity].
Defined.

(** C3, as the specification words it, fails: the array with the one
    element [{}], which has neither a title nor a QA list, is returned
    as the lesson and is not answered with the unexpected-format error. *)
Lemma array_reply_validation_counterexample :
  GeminiService.specValidSection (GeminiService.JObject []) = false /\
  GeminiService.getTeachingSections Sample.key
    (Sample.replying (Sample.textOnly "[{}]"))
    (Sample.parsing "[{}]" (GeminiService.JArray [GeminiService.JObject []]))
    Sample.urlOnly
  = Js.Returned ([GeminiService.JObject []], []) /\
  GeminiService.getTeachingSections Sample.key
    (Sample.replying (Sample.textOnly "[{}]"))
    (Sample.parsing "[{}]" (GeminiService.JArray [GeminiService.JObject []]))
    Sample.urlOnly
  <> Js.Threw (GeminiService.Exn GeminiService.PlainError
                 GeminiService.unexpectedFormatMessage).
Proof.
  split; [reflexivity |]. split; [reflexivity | discriminate].
Qed.



(** ** The provenance resolver *)

Section Provenance.

Import Js GeminiService.

Lemma truthy_nonempty (s : string) : truthy s = true <-> s <> EmptyString.
Proof. destruct s; simpl; split; congruence. Qed.

Lemma in_choose (A B : Type) (f : A -> option B) (l : list A) (y : B) :
  In y (choose f l) <-> exists x, In x l /\ f x = Some y.
Proof.
  induction l as [|a l IH]; simpl.
  - split; [contradiction | intros (x & [] & _)].
  - destruct (f a) as [b|] eqn:E; simpl; rewrite IH; split.
    + intros [<- | (x & Hx & Hf)]; [now exists a; auto | exists x; auto].
    + intros (x & [<- | Hx] & Hf);
        [left; congruence | right; now exists x].
    + intros (x & Hx & Hf). exists x; auto.
    + intros (x & [<- | Hx] & Hf); [congruence | now exists x].
Qed.

Lemma choose_app (A B : Type) (f : A -> option B) (l1 l2 : list A) :
  choose f (l1 ++ l2) = (choose f l1 ++ choose f l2)%list.
Proof.
  induction l1 as [|a l1 IH]; simpl; [reflexivity |].
  destruct (f a); simpl; now rewrite IH.
Qed.

(** What passes the guard: a [web] entry with a non-empty uri and a
    non-empty title, and the source made of the two. *)
Lemma guardedWeb_some (web : option Genai.Web) (s : GroundingSource) :
  guardedWeb web = Some s <->
  exists w,
    web = Some w /\ Genai.uri w = Some (uri s) /\
    Genai.title w = Some (title s) /\ wellFormed s.
Proof.
  unfold guardedWeb, wellFormed. split.
  - destruct web as [[[u|] [t|]]|]; simpl; try discriminate.
    destruct (truthy u) eqn:Hu; [| discriminate].
    destruct (truthy t) eqn:Ht; [| discriminate].
    simpl. intros H. inversion H. subst s. simpl.
    apply truthy_nonempty in Hu, Ht. eexists. eauto.
  - intros (w & -> & Hu & Ht & Hue & Hte). rewrite Hu, Ht.
    apply truthy_nonempty in Hue, Hte. rewrite Hue, Hte.
    now destruct s.
Qed.

(** What does not pass it: no [web] entry, or no uri, or no title, an
    empty string counting as none. *)
Lemma guardedWeb_none (web : option Genai.Web) :
  guardedWeb web = None <->
  web = None \/
  exists w,
    web = Some w /\
    (truthy_opt (Genai.uri w) = false \/ truthy_opt (Genai.title w) = false).
Proof.
  unfold guardedWeb. split.
  - destruct web as [[[u|] [t|]]|]; simpl; auto; intros H; right;
      eexists; (split; [reflexivity |]); simpl; auto.
    destruct (truthy u); auto. destruct (truthy t); auto. discriminate.
  - intros [-> | (w & -> & H)]; [reflexivity |].
    destruct w as [[u|] [t|]]; simpl in *; try reflexivity.
    destruct H as [-> | ->]; [reflexivity | now destruct (truthy u)].
Qed.

Lemma groundingSources_wellFormed (chunks : list Genai.GroundingChunk) :
  Forall wellFormed (groundingSources chunks).
Proof.
  apply Forall_forall. intros s Hs. unfold groundingSources in Hs.
  apply in_choose in Hs as (web & _ & Hweb).
  apply guardedWeb_some in Hweb as (w & _ & _ & _ & H). exact H.
Qed.

Lemma successfulUrlSource_some (meta : Genai.UrlMetadata)
    (s : GroundingSource) :
  successfulUrlSource meta = Some s <->
  Genai.urlRetrievalStatus meta = Some retrievalSuccess /\
  Genai.retrievedUrl meta = Some (uri s) /\
  title s = uri s /\ uri s <> EmptyString.
Proof.
  unfold successfulUrlSource. split.
  - destruct (Genai.urlRetrievalStatus meta) as [status|]; [| discriminate].
    destruct (Genai.retrievedUrl meta) as [url|]; [| discriminate].
    destruct (status =? retrievalSuccess)%string eqn:Es; [| discriminate].
    destruct (truthy url) eqn:Eu; [| discriminate].
    simpl. intros H. inversion H. subst s. simpl.
    apply String.eqb_eq in Es. apply truthy_nonempty in Eu.
    now subst status.
  - intros (-> & -> & Ht & Hne). rewrite String.eqb_refl.
    apply truthy_nonempty in Hne. rewrite Hne. simpl.
    destruct s as [u t]. simpl in *. now subst t.
Qed.

Lemma existsb_uri (sources : list GroundingSource) (u : string) :
  existsb (fun s => (uri s =? u)%string) sources = true <->
  In u (map uri sources).
Proof.
  rewrite existsb_exists, in_map_iff. split.
  - intros (s & Hs & E). apply String.eqb_eq in E. now exists s.
  - intros (s & E & Hs). exists s. split; [exact Hs |].
    now apply String.eqb_eq.
Qed.

(** The merge keeps the list it starts from and appends, in the order of
    the retrieval channel, the sources whose uri was not there yet. *)
Lemma mergeUrlSources_extends (urlSources : list GroundingSource) :
  forall sources : list GroundingSource,
  exists added,
    mergeUrlSources sources urlSources = (sources ++ added)%list /\
    NoDup (map uri added) /\
    (forall a, In a added ->
       In a urlSources /\ ~ In (uri a) (map uri sources)).
Proof.
  unfold mergeUrlSources.
  induction urlSources as [|u rest IH]; intros sources; simpl.
  - exists []. rewrite app_nil_r. repeat split; [constructor | contradiction ..].
  - unfold pushIfNew at 2.
    destruct (existsb (fun s => (uri s =? uri u)%string) sources) eqn:E.
    + destruct (IH sources) as (added & Hm & Hnd & Hin).
      exists added. split; [exact Hm |]. split; [exact Hnd |].
      intros a Ha. destruct (Hin a Ha). auto.
    + destruct (IH (push sources u)) as (added & Hm & Hnd & Hin).
      assert (Hu : ~ In (uri u) (map uri sources)).
      { intros H. apply existsb_uri in H. congruence. }
      exists (u :: added). unfold push in *.
      split; [rewrite Hm, <- app_assoc; reflexivity |].
      split.
      * simpl. constructor; [| exact Hnd].
        intros H. apply in_map_iff in H as (a & Ea & Ha).
        destruct (Hin a Ha) as [_ Hn]. apply Hn.
        rewrite map_app, in_app_iff. right. simpl. auto.
      * intros a [<- | Ha]; [auto |].
        destruct (Hin a Ha) as [Hr Hn]. split; [auto |].
        intros H. apply Hn. rewrite map_app, in_app_iff. now left.
Qed.

(** Every uri of the retrieval channel is in the merged list. *)
Lemma mergeUrlSources_covers (urlSources : list GroundingSource) :
  forall (sources : list GroundingSource) (u : string),
    In u (map uri sources) \/ In u (map uri urlSources) ->
    In u (map uri (mergeUrlSources sources urlSources)).
Proof.
  unfold mergeUrlSources.
  induction urlSources as [|x rest IH]; intros sources u H; simpl.
  - destruct H as [H | []]. exact H.
  - apply IH. unfold pushIfNew, push.
    destruct (existsb (fun s => (uri s =? uri x)%string) sources) eqn:E.
    + destruct H as [H | [<- | H]]; auto.
      left. now apply existsb_uri.
    + rewrite map_app, in_app_iff. simpl.
      destruct H as [H | [<- | H]]; auto.
Qed.

Lemma NoDup_app_disjoint (A : Type) (l1 l2 : list A) :
  NoDup l1 -> NoDup l2 -> (forall x, In x l2 -> ~ In x l1) ->
  NoDup (l1 ++ l2).
Proof.
  intros H1 H2 Hd. induction H1 as [|x l1 Hx H1 IH]; simpl; [exact H2 |].
  constructor.
  - rewrite in_app_iff. intros [H | H]; [contradiction |].
    apply (Hd x H). now left.
  - apply IH. intros y Hy Hin. apply (Hd y Hy). now right.
Qed.

Lemma resolveSources_merge (response : Genai.GenerateContentResponse) :
  resolveSources response =
  mergeUrlSources (groundingOf response)
    (choose successfulUrlSource (retrievedOf response)).
Proof.
  unfold resolveSources, groundingOf, retrievedOf.
  now destruct (Genai.urlContextMetadata response).
Qed.

Lemma resolveSources_wellFormed (response : Genai.GenerateContentResponse) :
  Forall wellFormed (resolveSources response).
Proof.
  rewrite resolveSources_merge.
  destruct (mergeUrlSources_extends
              (choose successfulUrlSource (retrievedOf response))
              (groundingOf response)) as (added & -> & _ & Hin).
  apply Forall_app. split.
  - unfold groundingOf. destruct (Genai.groundingChunks response);
      [apply groundingSources_wellFormed | constructor].
  - apply Forall_forall. intros a Ha. destruct (Hin a Ha) as [Hs _].
    apply in_choose in Hs as (meta & _ & Hs).
    apply successfulUrlSource_some in Hs as (_ & _ & Ht & Hne).
    split; [exact Hne | now rewrite Ht].
Qed.

(** A chunk that does not pass the guard leaves no trace in the list; a
    chunk that passes it stands at its place. *)
Lemma groundingSources_chunk (before after : list Genai.GroundingChunk)
    (chunk : Genai.GroundingChunk) :
  groundingSources (before ++ chunk :: after) =
  (groundingSources before ++
   match guardedWeb (Genai.web chunk) with
   | Some s => [s]
   | None => []
   end ++ groundingSources after)%list.
Proof.
  unfold groundingSources. rewrite map_app, choose_app. simpl.
  now destruct (guardedWeb (Genai.web chunk)).
Qed.

Variable API_KEY : option string.
Variable generateContent :
  Request -> completion BackendFailure Genai.GenerateContentResponse.
Variable JSON_parse : string -> completion string json.
Variable newURL : string -> option Url.URL.

Lemma classify_sources (parsedResponse : json)
    (sources : list GroundingSource) (lesson : Lesson) :
  classify parsedResponse sources = Returned lesson -> snd lesson = sources.
Proof.
  unfold classify.
  destruct (get_missing_pdfs parsedResponse) as [missing|e]; simpl;
    [| discriminate].
  match goal with |- (if ?c then _ else _) = _ -> _ => destruct c end;
    [discriminate |].
  destruct (isArray parsedResponse); [| discriminate].
  intros H. now inversion H.
Qed.

(** The sources of a returned lesson are those resolved from the reply. *)
Lemma lesson_sources (context : Context) (lesson : Lesson) :
  getTeachingSections API_KEY generateContent JSON_parse context =
  Returned lesson ->
  exists req response,
    compileRequest context = Returned req /\
    generateContent req = Returned response /\
    snd lesson = resolveSources response.
Proof.
  unfold getTeachingSections, settle.
  destruct (negb (truthy_opt API_KEY)); [discriminate |].
  destruct (compileRequest context) as [req|e]; simpl; [| discriminate].
  destruct (generateLesson generateContent JSON_parse req)
    as [l|e] eqn:G; [| discriminate].
  intros H. inversion H. subst l. clear H.
  unfold generateLesson, parseAndClassify in G.
  destruct (generateContent req) as [response|[cls m]] eqn:Hg;
    [| discriminate].
  simpl in G.
  destruct (jsonText (useGoogleSearch req) (Genai.text response))
    as [responseText|e]; [| discriminate].
  simpl in G.
  destruct (ofParse (JSON_parse responseText)) as [parsed|e];
    [| discriminate].
  simpl in G. apply classify_sources in G.
  now exists req, response.
Qed.

(** The sources of a chat answer: none for the apology, and the sources
    of the grounding channel of the reply otherwise. *)
Lemma chat_sources (userMessage : string) (context : ChatContext)
    (useSearch : bool) (history : list Genai.Content) (modelName : string)
    (answer : ChatResponse) :
  getFollowUpResponse API_KEY generateContent newURL userMessage
    context useSearch history modelName = Returned answer ->
  sources answer = [] \/
  exists response,
    generateContent (chatRequest context useSearch history modelName) =
    Returned response /\
    Genai.text response = Some (text answer) /\
    sources answer = groundingOf response /\
    relatedLinks answer =
    relatedLinksOf newURL (text answer) (sources answer).
Proof.
  unfold getFollowUpResponse.
  destruct (negb (truthy_opt API_KEY)); [discriminate |].
  unfold answerFollowUp.
  destruct (generateContent (chatRequest context useSearch history modelName))
    as [response|[cls m]] eqn:Hg; simpl.
  - destruct (Genai.text response) as [t|] eqn:Ht; simpl.
    + intros H. inversion H. subst answer. simpl. right.
      exists response. auto.
    + discriminate.
  - destruct (instanceofError cls && includes "SAFETY" m); [| discriminate].
    intros H. inversion H. now left.
Qed.

(** A chunk that does not pass the guard changes nothing in the outcome
    of a lesson request or of a chat turn. *)
Lemma groundingSources_omitted (before after : list Genai.GroundingChunk)
    (chunk : Genai.GroundingChunk) :
  guardedWeb (Genai.web chunk) = None ->
  groundingSources (before ++ chunk :: after) =
  groundingSources (before ++ after).
Proof.
  intros H. rewrite groundingSources_chunk, H. simpl.
  unfold groundingSources. now rewrite map_app, choose_app.
Qed.

Lemma lesson_chunk_omitted (context : Context) (text : option string)
    (before after : list Genai.GroundingChunk) (chunk : Genai.GroundingChunk)
    (metadata : option (list Genai.UrlMetadata)) :
  guardedWeb (Genai.web chunk) = None ->
  getTeachingSections API_KEY
    (fun _ => Returned
                (Genai.mkResponse text (Some (before ++ chunk :: after)%list)
                   metadata))
    JSON_parse context =
  getTeachingSections API_KEY
    (fun _ => Returned
                (Genai.mkResponse text (Some (before ++ after)%list) metadata))
    JSON_parse context.
Proof.
  intros H. unfold getTeachingSections, generateLesson, resolveSources.
  simpl. now rewrite (groundingSources_omitted before after chunk H).
Qed.

Lemma chat_chunk_omitted (userMessage : string) (context : ChatContext)
    (useSearch : bool) (history : list Genai.Content) (modelName : string)
    (text : option string)
    (before after : list Genai.GroundingChunk) (chunk : Genai.GroundingChunk)
    (metadata : option (list Genai.UrlMetadata)) :
  guardedWeb (Genai.web chunk) = None ->
  getFollowUpResponse API_KEY
    (fun _ => Returned
                (Genai.mkResponse text (Some (before ++ chunk :: after)%list)
                   metadata))
    newURL userMessage context useSearch history modelName =
  getFollowUpResponse API_KEY
    (fun _ => Returned
                (Genai.mkResponse text (Some (before ++ after)%list) metadata))
    newURL userMessage context useSearch history modelName.
Proof.
  intros H. unfold getFollowUpResponse, answerFollowUp.
  simpl. now rewrite (groundingSources_omitted before after chunk H).
Qed.

End Provenance.

(** C5, as the code has it. The merged list is the list of the grounding
    channel, as it came and in its order, followed by one source for
    every uri that the retrieval channel reported with the success
    status and that was not in the list yet. Hence no appended uri
    occurs twice or repeats a grounding uri, every appended source has
    its uri as title and stems from a success record, every uri reported
    with success is in the list, a source with a grounding uri is a
    source of the grounding channel, and the list is free of duplicate
    uris when the grounding channel is. *)
Theorem merged_sources_first_seen_wins :
  forall response : Genai.GenerateContentResponse,
    let grounding := GeminiService.groundingOf response in
    let merged := GeminiService.resolveSources response in
    exists added,
      merged = (grounding ++ added)%list /\
      NoDup (map uri added) /\
      (forall a, In a added ->
         ~ In (uri a) (map uri grounding) /\
         title a = uri a /\
         exists record,
           In record (GeminiService.retrievedOf response) /\
           Genai.urlRetrievalStatus record =
             Some GeminiService.retrievalSuccess /\
           Genai.retrievedUrl record = Some (uri a)) /\
      (forall record url,
         In record (GeminiService.retrievedOf response) ->
         Genai.urlRetrievalStatus record =
           Some GeminiService.retrievalSuccess ->
         Genai.retrievedUrl record = Some url ->
         url <> EmptyString ->
         In url (map uri merged)) /\
      (forall s, In s merged -> In (uri s) (map uri grounding) ->
                 In s grounding) /\
      (NoDup (map uri grounding) -> NoDup (map uri merged)).
Proof.
  intros response grounding merged. subst grounding merged.
  rewrite resolveSources_merge.
  destruct (mergeUrlSources_extends
              (GeminiService.choose GeminiService.successfulUrlSource
                 (GeminiService.retrievedOf response))
              (GeminiService.groundingOf response))
    as (added & Hm & Hnd & Hin).
  exists added. split; [exact Hm |]. split; [exact Hnd |].
  split; [| split; [| split]].
  - intros a Ha. destruct (Hin a Ha) as [Hs Hn]. split; [exact Hn |].
    apply in_choose in Hs as (record & Hr & Hs).
    apply successfulUrlSource_some in Hs as (H1 & H2 & H3 & _).
    split; [exact H3 |]. now exists record.
  - intros record url Hr Hst Hu Hne.
    apply mergeUrlSources_covers. right.
    apply in_map_iff. exists (mkSource url url). split; [reflexivity |].
    apply in_choose. exists record. split; [exact Hr |].
    apply successfulUrlSource_some. simpl. auto.
  - intros s Hs Hu. rewrite Hm in Hs. apply in_app_iff in Hs as [Hs | Hs];
      [exact Hs |].
    destruct (Hin s Hs) as [_ Hn]. contradiction.
  - intros Hg. rewrite Hm, map_app. apply NoDup_app_disjoint; auto.
    intros u Hu Hgu. apply in_map_iff in Hu as (a & <- & Ha).
    destruct (Hin a Ha) as [_ Hn]. contradiction.
Qed.

Lemma merged_sources_first_seen_wins_witness :
  GeminiService.resolveSources
    (Genai.mkResponse (Some "[]")
       (Some [Genai.mkChunk
                (Some (Genai.mkWeb (Some "https://a.com") (Some "A")))])
       (Some [Genai.mkUrlMetadata (Some "URL_RETRIEVAL_STATUS_SUCCESS")
                (Some "https://a.com");
              Genai.mkUrlMetadata (Some "URL_RETRIEVAL_STATUS_ERROR")
                (Some "https://c.com");
              Genai.mkUrlMetadata (Some "URL_RETRIEVAL_STATUS_SUCCESS")
                (Some "https://b.com")]))
  = [mkSource "https://a.com" "A"; mkSource "https://b.com" "https://b.com"]
  /\
  NoDup (map uri
    (GeminiService.resolveSources
      (Genai.mkResponse (Some "[]")
         (Some [Genai.mkChunk
                  (Some (Genai.mkWeb (Some "https://a.com") (Some "A")))])
         (Some [Genai.mkUrlMetadata (Some "URL_RETRIEVAL_STATUS_SUCCESS")
                  (Some "https://a.com");
                Genai.mkUrlMetadata (Some "URL_RETRIEVAL_STATUS_ERROR")
                  (Some "https://c.com");
                Genai.mkUrlMetadata (Some "URL_RETRIEVAL_STATUS_SUCCESS")
                  (Some "https://b.com")])))).
Proof.
  split; [reflexivity |].
  destruct (merged_sources_first_seen_wins
              (Genai.mkResponse (Some "[]")
                 (Some [Genai.mkChunk
                          (Some (Genai.mkWeb (Some "https://a.com")
                                   (Some "A")))])
                 (Some [Genai.mkUrlMetadata
                          (Some "URL_RETRIEVAL_STATUS_SUCCESS")
                          (Some "https://a.com");
                        Genai.mkUrlMetadata
                          (Some "URL_RETRIEVAL_STATUS_ERROR")
                          (Some "https://c.com");
                        Genai.mkUrlMetadata
                          (Some "URL_RETRIEVAL_STATUS_SUCCESS")
                          (Some "https://b.com")])))
    as (added & _ & _ & _ & _ & _ & H).
  apply H. simpl. constructor; [intros [] | constructor].
Defined.

(** C5, as the specification words it, fails: two grounding chunks with
    the same uri are both kept, so the merged list is not free of
    duplicate uris. *)
Lemma merged_sources_dedup_counterexample :
  GeminiService.resolveSources
    (Genai.mkResponse (Some "[]")
       (Some [Genai.mkChunk
                (Some (Genai.mkWeb (Some "https://a.com") (Some "A")));
              Genai.mkChunk
                (Some (Genai.mkWeb (Some "https://a.com") (Some "B")))])
       None)
  = [mkSource "https://a.com" "A"; mkSource "https://a.com" "B"] /\
  ~ NoDup (map uri
      (GeminiService.resolveSources
         (Genai.mkResponse (Some "[]")
            (Some [Genai.mkChunk
                     (Some (Genai.mkWeb (Some "https://a.com") (Some "A")));
                   Genai.mkChunk
                     (Some (Genai.mkWeb (Some "https://a.com") (Some "B")))])
            None))).
Proof.
  split; [reflexivity |].
  simpl. intros H. inversion H as [|x l Hx _]. apply Hx. now left.
Qed.

(** C10. A lesson and a chat answer list only sources with a non-empty
    uri and a non-empty title. A grounding chunk without a [web] entry,
    or whose uri or title is missing or empty, leaves no entry in the
    list of grounding sources and changes nothing in the outcome of the
    lesson request or of the chat turn; the other chunks stand at their
    place with the uri and the title of their [web] entry. *)
Theorem grounding_sources_are_well_formed :
  (forall API_KEY generateContent JSON_parse context lesson,
     GeminiService.getTeachingSections API_KEY generateContent JSON_parse
       context = Js.Returned lesson ->
     Forall GeminiService.wellFormed (snd lesson)) /\
  (forall API_KEY generateContent newURL userMessage context
     useSearch history modelName answer,
     GeminiService.getFollowUpResponse API_KEY generateContent newURL
       userMessage context useSearch history modelName = Js.Returned answer ->
     Forall GeminiService.wellFormed (GeminiService.sources answer)) /\
  (forall before chunk after,
     (Genai.web chunk = None \/
      exists w,
        Genai.web chunk = Some w /\
        (Js.truthy_opt (Genai.uri w) = false \/
         Js.truthy_opt (Genai.title w) = false)) ->
     GeminiService.groundingSources (before ++ chunk :: after) =
     GeminiService.groundingSources (before ++ after) /\
     (forall API_KEY JSON_parse context text metadata,
        GeminiService.getTeachingSections API_KEY
          (fun _ =>
             Js.Returned
               (Genai.mkResponse text (Some (before ++ chunk :: after)%list)
                  metadata))
          JSON_parse context =
        GeminiService.getTeachingSections API_KEY
          (fun _ =>
             Js.Returned
               (Genai.mkResponse text (Some (before ++ after)%list) metadata))
          JSON_parse context) /\
     (forall API_KEY newURL userMessage context useSearch history
        modelName text metadata,
        GeminiService.getFollowUpResponse API_KEY
          (fun _ =>
             Js.Returned
               (Genai.mkResponse text (Some (before ++ chunk :: after)%list)
                  metadata))
          newURL userMessage context useSearch history modelName =
        GeminiService.getFollowUpResponse API_KEY
          (fun _ =>
             Js.Returned
               (Genai.mkResponse text (Some (before ++ after)%list) metadata))
          newURL userMessage context useSearch history modelName)) /\
  (forall before chunk after u t,
     Genai.web chunk = Some (Genai.mkWeb (Some u) (Some t)) ->
     u <> EmptyString -> t <> EmptyString ->
     GeminiService.groundingSources (before ++ chunk :: after) =
     (GeminiService.groundingSources before ++
      mkSource u t :: GeminiService.groundingSources after)%list).
Proof.
  split; [| split; [| split]].
  - intros API_KEY generateContent JSON_parse context lesson H.
    apply lesson_sources in H as (req & response & _ & _ & ->).
    apply resolveSources_wellFormed.
  - intros API_KEY generateContent newURL userMessage context
      useSearch history modelName answer H.
    apply chat_sources in H as [-> | (response & _ & _ & -> & _)];
      [constructor |].
    unfold GeminiService.groundingOf.
    destruct (Genai.groundingChunks response);
      [apply groundingSources_wellFormed | constructor].
  - intros before chunk after H.
    apply guardedWeb_none in H. split; [| split].
    + now apply groundingSources_omitted.
    + intros. now apply lesson_chunk_omitted.
    + intros. now apply chat_chunk_omitted.
  - intros before chunk after u t Hw Hu Ht.
    rewrite groundingSources_chunk.
    assert (E : GeminiService.guardedWeb (Genai.web chunk) =
                Some (mkSource u t)).
    { apply guardedWeb_some. eexists. split; [exact Hw |].
      simpl. repeat split; assumption. }
    now rewrite E.
Qed.

Lemma grounding_sources_are_well_formed_witness :
  Forall GeminiService.wellFormed
    (snd ([GeminiService.JObject []],
          GeminiService.resolveSources
            (Genai.mkResponse (Some "[{}]")
               (Some [Genai.mkChunk None;
                      Genai.mkChunk
                        (Some (Genai.mkWeb (Some "https://a.com") None));
                      Genai.mkChunk
                        (Some (Genai.mkWeb (Some "https://b.com")
                                 (Some "B")))])
               None))) /\
  GeminiService.groundingSources
    ([] ++ Genai.mkChunk (Some (Genai.mkWeb (Some "https://a.com") None))
        :: [Genai.mkChunk
              (Some (Genai.mkWeb (Some "https://b.com") (Some "B")))])
  = GeminiService.groundingSources
      ([] ++ [Genai.mkChunk
                (Some (Genai.mkWeb (Some "https://b.com") (Some "B")))]).
Proof.
  split.
  - apply (proj1 grounding_sources_are_well_formed Sample.key
             (Sample.replying
                (Genai.mkResponse (Some "[{}]")
                   (Some [Genai.mkChunk None;
                          Genai.mkChunk
                            (Some (Genai.mkWeb (Some "https://a.com") None));
                          Genai.mkChunk
                            (Some (Genai.mkWeb (Some "https://b.com")
                                     (Some "B")))])
                   None))
             (Sample.parsing "[{}]"
                (GeminiService.JArray [GeminiService.JObject []]))
             Sample.urlOnly).
    reflexivity.
  - apply (proj1 (proj2 (proj2 grounding_sources_are_well_formed))).
    right. eexists. split; [reflexivity |]. right. reflexivity.
Defined.


(** ** The resubmission of supplemental content *)

Section Resubmission.

Import App.

(** What a resubmission hands on, for any retained context and any
    attachments: as files, those of the retained context, then the bulk
    files, then the files attached to single documents; as pasted texts,
    the texts attached to single documents and nothing else. *)
Lemma resubmission_context (st : State) (last : LearningContext) :
  lastLearningContext st = Some last ->
  supplementalContent st <> [] \/ supplementalBulkPdfs st <> [] ->
  exists context,
    resubmission st = inr context /\
    pdfFiles context =
      Some ((match pdfFiles last with Some fs => fs | None => [] end) ++
            supplementalBulkPdfs st ++
            individualFiles (supplementalContent st))%list /\
    pastedTexts context = Some (individualTexts (supplementalContent st)).
Proof.
  intros Hl Hsome. unfold resubmission. rewrite Hl.
  destruct (supplementalContent st) as [|e es] eqn:Ec;
    destruct (supplementalBulkPdfs st) as [|b bs] eqn:Eb; simpl.
  - destruct Hsome; contradiction.
  - eexists. split; [reflexivity |]. unfold newContext. simpl.
    now rewrite Ec, Eb.
  - eexists. split; [reflexivity |]. unfold newContext. simpl.
    now rewrite Ec, Eb.
  - eexists. split; [reflexivity |]. unfold newContext. simpl.
    now rewrite Ec, Eb.
Qed.

End Resubmission.

(** C7, at a session that breaks it. After a first resubmission the
    retained context holds the pasted text of the first document. The
    second resubmission hands on the bulk file, but as pasted texts the
    text of the second document alone: the retained text of the first
    document is gone. *)
Theorem resubmission_drops_retained_pasted_texts :
  exists retained context,
    App.lastLearningContext Sample.secondAnswered = Some retained /\
    App.pastedTexts retained = Some ["text of the first document"] /\
    App.resubmission Sample.secondAnswered = inr context /\
    App.pdfFiles context = Some [Sample.bulkFile] /\
    App.pastedTexts context = Some ["text of the second document"] /\
    ~ In "text of the first document"
        (match App.pastedTexts context with Some ts => ts | None => [] end).
Proof.
  eexists. eexists.
  split; [reflexivity |]. split; [reflexivity |].
  split; [reflexivity |]. split; [reflexivity |].
  split; [reflexivity |].
  simpl. intros [H | []]. discriminate.
Qed.

(** ** The request compiler *)

Section Compiler.

Import Js GeminiService.

Lemma startsWith_before (needle a b : string) (c : ascii) :
  lacks c needle = true ->
  startsWith needle (a ++ String c b) = startsWith needle a.
Proof.
  revert a. induction needle as [|x needle IH]; intros a Hl; [reflexivity |].
  simpl in Hl. apply andb_true_iff in Hl as [Hx Hl].
  destruct a as [|y a]; simpl.
  - apply negb_true_iff in Hx. now rewrite Hx.
  - now rewrite IH.
Qed.

(** A needle without the code unit [c] occurs in a text around a [c]
    exactly when it occurs before it or behind it. *)
Lemma includes_around (needle a b : string) (c : ascii) :
  lacks c needle = true ->
  includes needle (a ++ String c b) = includes needle a || includes needle b.
Proof.
  intros Hl. induction a as [|y a IH].
  - simpl append. cbn [includes].
    change (String c b) with (EmptyString ++ String c b).
    rewrite (startsWith_before needle EmptyString b c Hl).
    now rewrite orb_false_r.
  - simpl append. cbn [includes]. rewrite IH.
    change (String y (a ++ String c b)) with (String y a ++ String c b).
    rewrite (startsWith_before needle (String y a) b c Hl).
    now rewrite orb_assoc.
Qed.

Lemma includes_suffix (needle a : string) : includes needle (a ++ needle) = true.
Proof.
  induction a as [|y a IH]; simpl.
  - destruct needle as [|x needle]; [reflexivity |].
    cbn [includes]. rewrite <- (append_empty_r (String x needle)) at 2.
    now rewrite startsWith_append.
  - rewrite IH. apply orb_true_r.
Qed.

(** The tools after the URL block and the search block. *)
Lemma search_tool_requested (ctx : Context) (descs : list string) :
  existsb isGoogleSearch (snd (addSearch ctx (descs, snd (addUrls ctx ([], [])))))
  = searchRequested ctx.
Proof.
  unfold addSearch, addUrls, searchRequested, truthy_opt.
  destruct (nonEmpty (urls ctx)); destruct (searchQuery ctx) as [q|];
    simpl; try reflexivity; destruct (truthy q); reflexivity.
Qed.

(** What a compiled request says, in terms of the context. *)
Lemma compileRequest_instruction (ctx : Context) (req : Request) :
  compileRequest ctx = Returned req ->
  useGoogleSearch req = searchRequested ctx /\
  systemInstruction req =
    preamble ctx ++
    (if searchRequested ctx
     then groundingInstruction ++ escalationInstruction
     else schemaInstruction) /\
  responseSchema req = (if searchRequested ctx then None else Some schema).
Proof.
  unfold compileRequest.
  destruct (addUrls ctx ([], [])) as [descs1 tools1] eqn:E1.
  destruct (addPdfs ctx (descs1, [])) as [descs2 parts2].
  destruct (addPastedTexts ctx (descs2, parts2)) as [descs3 parts3].
  pose proof (search_tool_requested ctx descs3) as Hs.
  rewrite E1 in Hs. simpl in Hs.
  destruct (addSearch ctx (descs3, tools1)) as [descs4 tools4].
  simpl in Hs. destruct descs4 as [|d ds]; [discriminate |].
  intros H. inversion H. subst req. clear H. unfold useGoogleSearch. simpl.
  rewrite Hs. repeat split.
  destruct tools4 as [|t ts]; [simpl in *; exact Hs | exact Hs].
Qed.

(** The instruction of a request without search mentions [missing_pdfs]
    only if the focus topic does. *)
Lemma preamble_schema_mentions (ctx : Context) :
  includes escalationKey (preamble ctx ++ schemaInstruction) = true ->
  includes escalationKey (topicOf ctx) = true.
Proof.
  unfold preamble, topicOf.
  destruct (focusTopic ctx) as [topic|]; [| vm_compute; discriminate].
  destruct (truthy topic && truthy (trim topic));
    [| vm_compute; discriminate].
  unfold focusInstruction, dquote.
  rewrite !append_assoc.
  change (String (ascii_of_nat 34) EmptyString ++ ?x)
    with (String (ascii_of_nat 34) x).
  set (before := " The user has a specific interest in ") in *.
  rewrite <- (append_assoc educatorInstruction before).
  simpl (String (ascii_of_nat 34) EmptyString ++ _).
  rewrite (includes_around escalationKey _ _ (ascii_of_nat 34) eq_refl).
  rewrite (includes_around escalationKey _ _ (ascii_of_nat 34) eq_refl).
  replace (includes escalationKey (educatorInstruction ++ before)) with false
    by (vm_compute; reflexivity).
  simpl orb. intros H.
  apply orb_true_iff in H as [H | H]; [exact H | vm_compute in H; discriminate].
Qed.

Lemma startsWith_spec (needle hay : string) :
  startsWith needle hay = true <-> exists post, hay = needle ++ post.
Proof.
  revert hay. induction needle as [|x needle IH]; intros hay; simpl.
  - split; [intros _; now exists hay | reflexivity].
  - destruct hay as [|y hay].
    + split; [discriminate | intros [post H]; discriminate].
    + rewrite andb_true_iff, IH, Ascii.eqb_eq. split.
      * intros [-> [post ->]]. now exists post.
      * intros [post H]. inversion H. split; [reflexivity | now exists post].
Qed.

Lemma includes_spec (needle hay : string) :
  includes needle hay = true <-> exists pre post, hay = pre ++ needle ++ post.
Proof.
  induction hay as [|y hay IH]; cbn [includes];
    rewrite orb_true_iff, startsWith_spec.
  - split.
    + intros [[post H] | H]; [now exists EmptyString, post | discriminate].
    + intros (pre & post & H). left. destruct pre; [now exists post |].
      discriminate.
  - rewrite IH. split.
    + intros [[post H] | (pre & post & H)].
      * now exists EmptyString, post.
      * exists (String y pre), post. simpl. now rewrite H.
    + intros (pre & post & H). destruct pre as [|z pre].
      * left. now exists post.
      * right. inversion H. now exists pre, post.
Qed.

(** A text that includes a text includes what that text includes. *)
Lemma includes_trans (a b hay : string) :
  includes a b = true -> includes b hay = true -> includes a hay = true.
Proof.
  rewrite !includes_spec.
  intros (p2 & q2 & ->) (p1 & q1 & ->).
  exists (p1 ++ p2), (q2 ++ q1). now rewrite !append_assoc.
Qed.

End Compiler.

(** C1, as the code has it. The escalation instruction is part of the
    system instruction exactly when the web search is requested, and the
    strict schema is supplied exactly when it is not. Without the
    search the instruction does not even name the [missing_pdfs] key,
    unless the focus topic given by the caller does. *)
Theorem escalation_instruction_only_with_search :
  forall (ctx : GeminiService.Context) (req : GeminiService.Request),
    GeminiService.compileRequest ctx = Js.Returned req ->
    GeminiService.useGoogleSearch req = GeminiService.searchRequested ctx /\
    (GeminiService.searchRequested ctx = true ->
     Js.includes GeminiService.escalationInstruction
       (GeminiService.systemInstruction req) = true /\
     GeminiService.responseSchema req = None) /\
    (GeminiService.searchRequested ctx = false ->
     GeminiService.responseSchema req = Some GeminiService.schema /\
     (Js.includes GeminiService.escalationKey (GeminiService.topicOf ctx)
      = false ->
      Js.includes GeminiService.escalationKey
        (GeminiService.systemInstruction req) = false /\
      Js.includes GeminiService.escalationInstruction
        (GeminiService.systemInstruction req) = false)).
Proof.
  intros ctx req H.
  apply compileRequest_instruction in H as (Hu & Hi & Hs).
  split; [exact Hu |]. split; intros Hq; rewrite Hq in *.
  - split; [| exact Hs]. rewrite Hi, <- append_assoc.
    apply includes_suffix.
  - split; [exact Hs |]. intros Ht.
    assert (Hk : Js.includes GeminiService.escalationKey
                   (GeminiService.systemInstruction req) = false).
    { rewrite Hi.
      destruct (Js.includes GeminiService.escalationKey
                  (GeminiService.preamble ctx ++
                   GeminiService.schemaInstruction)) eqn:E; [| reflexivity].
      apply preamble_schema_mentions in E. congruence. }
    split; [exact Hk |].
    destruct (Js.includes GeminiService.escalationInstruction
                (GeminiService.systemInstruction req)) eqn:E; [| reflexivity].
    assert (Js.includes GeminiService.escalationKey
              (GeminiService.systemInstruction req) = true)
      by (eapply includes_trans; [| exact E]; vm_compute; reflexivity).
    congruence.
Qed.

Lemma escalation_instruction_only_with_search_witness :
  (exists req,
     GeminiService.compileRequest Sample.urlAndSearch = Js.Returned req /\
     Js.includes GeminiService.escalationInstruction
       (GeminiService.systemInstruction req) = true /\
     GeminiService.responseSchema req = None) /\
  (exists req,
     GeminiService.compileRequest Sample.urlOnly = Js.Returned req /\
     GeminiService.responseSchema req = Some GeminiService.schema /\
     Js.includes GeminiService.escalationInstruction
       (GeminiService.systemInstruction req) = false).
Proof.
  split.
  - eexists. split; [reflexivity |].
    apply (proj1 (proj2 (escalation_instruction_only_with_search
                           Sample.urlAndSearch _ eq_refl))).
    reflexivity.
  - eexists. split; [reflexivity |].
    destruct (proj2 (proj2 (escalation_instruction_only_with_search
                              Sample.urlOnly _ eq_refl)) eq_refl)
      as [Hs Hk].
    split; [exact Hs |]. apply Hk. reflexivity.
Defined.

(** C1, as the specification words it, fails: the request compiled for
    one URL and no search query carries the strict schema, and its
    system instruction holds neither the escalation instruction nor the
    name of the [missing_pdfs] key. *)
Lemma escalation_instruction_counterexample :
  exists req,
    GeminiService.compileRequest Sample.urlOnly = Js.Returned req /\
    GeminiService.useGoogleSearch req = false /\
    GeminiService.responseSchema req = Some GeminiService.schema /\
    Js.includes GeminiService.escalationInstruction
      (GeminiService.systemInstruction req) = false /\
    Js.includes GeminiService.escalationKey
      (GeminiService.systemInstruction req) = false.
Proof.
  eexists. split; [reflexivity |]. vm_compute. repeat split.
Qed.


(** ** The related links of a chat answer *)

Section RelatedLinks.

Import Js GeminiService.

Lemma has_spec (set : list string) (x : string) :
  has set x = true <-> In x set.
Proof.
  unfold has. rewrite existsb_exists. split.
  - intros (y & Hy & E). apply String.eqb_eq in E. now subst y.
  - intros H. exists x. split; [exact H | apply String.eqb_refl].
Qed.

(** Adding the values of a list to a set keeps the set free of
    duplicates and adds exactly the values of the list. *)
Lemma fold_setAdd (l : list string) :
  forall acc : list string,
    NoDup acc ->
    NoDup (fold_left setAdd l acc) /\
    (forall x, In x (fold_left setAdd l acc) <-> In x acc \/ In x l).
Proof.
  induction l as [|y l IH]; intros acc Hacc; simpl.
  - split; [exact Hacc |]. intros x. tauto.
  - assert (Hstep : NoDup (setAdd acc y) /\
                    (forall x, In x (setAdd acc y) <-> In x acc \/ y = x)).
    { unfold setAdd.
      destruct (existsb (String.eqb y) acc) eqn:E.
      - apply (has_spec acc y) in E. split; [exact Hacc |].
        intros x. split; [tauto |]. intros [H | <-]; assumption.
      - assert (~ In y acc)
          by (intros H; apply (has_spec acc y) in H; unfold has in H;
              congruence).
        unfold push. split.
        + apply NoDup_app_disjoint; [exact Hacc | repeat constructor; auto |].
          intros x [<- | []]. assumption.
        + intros x. rewrite in_app_iff. simpl. tauto. }
    destruct Hstep as [Hnd Hin].
    destruct (IH _ Hnd) as [IH1 IH2]. split; [exact IH1 |].
    intros x. rewrite IH2, Hin. tauto.
Qed.

Lemma setOf_spec (l : list string) :
  NoDup (setOf l) /\ (forall x, In x (setOf l) <-> In x l).
Proof.
  unfold setOf. destruct (fold_setAdd l [] (NoDup_nil string)) as [H1 H2].
  split; [exact H1 |]. intros x. rewrite H2. simpl. tauto.
Qed.

Lemma uris_of_links (l : list string) :
  map uri (map (fun url => mkSource url url) l) = l.
Proof. induction l as [|x l IH]; simpl; [reflexivity | now rewrite IH]. Qed.

Lemma star_greedy_first (R : Type) (p : ascii -> bool) (s : string) :
  forall (k : string -> string -> option R) (r : R),
    k (takeWhile p s) (dropWhile p s) = Some r ->
    Re.star_greedy p s k = Some r.
Proof.
  induction s as [|c t IH]; intros k r H; simpl in *; [exact H |].
  destruct (p c); [| exact H].
  now rewrite (IH (fun m rest => k (String c m) rest) r H).
Qed.

Lemma substring_prefix (a b : string) :
  String.substring 0 (String.length a) (a ++ b) = a.
Proof.
  induction a as [|x a IH]; simpl; [now destruct b | now rewrite IH].
Qed.

Lemma allOf_append (p : ascii -> bool) (a b : string) :
  allOf p (a ++ b) = allOf p a && allOf p b.
Proof.
  induction a as [|x a IH]; simpl; [reflexivity |].
  now rewrite IH, andb_assoc.
Qed.

(** Canonical code units are white space together. *)
Lemma isSpace_canonicalize (a : ascii) :
  isSpace (canonicalize a) = isSpace a.
Proof. destruct a as [[] [] [] [] [] [] [] []]; reflexivity. Qed.

(** A text that starts with a literal, case ignored, starts with a text
    of the length of the literal that has white space where the literal
    has. *)
Lemma prefix_ci_split (l : string) :
  forall s : string,
    prefix_ci l s = true ->
    exists h,
      s = h ++ drop (String.length l) s /\
      String.length h = String.length l /\
      prefix_ci l h = true /\
      allOf isNonSpace h = allOf isNonSpace l.
Proof.
  induction l as [|a l IH]; intros s H.
  - exists EmptyString. now destruct s.
  - destruct s as [|b s]; [discriminate |].
    simpl in H. apply andb_true_iff in H as [Hc H].
    destruct (IH s H) as (h & Hs & Hlen & Hp & Ha).
    exists (String b h). simpl. rewrite <- Hs, Hlen, Hc, Hp, Ha.
    repeat split. f_equal. unfold isNonSpace. f_equal.
    apply Ascii.eqb_eq in Hc.
    now rewrite <- (isSpace_canonicalize a), <- (isSpace_canonicalize b), Hc.
Qed.

Lemma dropWhile_empty (p : ascii -> bool) (s : string) :
  dropWhile p s = EmptyString <-> allOf p s = true.
Proof.
  induction s as [|c t IH]; simpl; [tauto |].
  destruct (p c); simpl; [exact IH | split; discriminate].
Qed.

Lemma dropEnd_empty (p : ascii -> bool) (s : string) :
  dropEnd p s = EmptyString <-> allOf p s = true.
Proof.
  induction s as [|c t IH]; simpl; [tauto |].
  destruct (dropEnd p t) as [|x d].
  - destruct (p c); simpl; [tauto |]. split; discriminate.
  - split; [discriminate |]. intros H.
    apply andb_true_iff in H as [_ H]. apply IH in H. discriminate.
Qed.

(** What is dropped at the end is a run of the class, and nothing is
    left to drop. *)
Lemma dropEnd_split (p : ascii -> bool) (s : string) :
  exists tail, s = dropEnd p s ++ tail /\ allOf p tail = true.
Proof.
  induction s as [|c t (tail & Ht & Ha)]; simpl.
  - now exists EmptyString.
  - destruct (dropEnd p t) as [|x d] eqn:E.
    + destruct (p c) eqn:Ec.
      * exists (String c t). split; [reflexivity |]. simpl. rewrite Ec.
        now apply dropEnd_empty.
      * exists tail. simpl in *. split; [congruence | exact Ha].
    + exists tail. simpl in *. split; [congruence | exact Ha].
Qed.

Lemma dropEnd_cons (p : ascii -> bool) (c : ascii) (t : string) :
  dropEnd p (String c t) =
  match dropEnd p t with
  | EmptyString => if p c then EmptyString else String c EmptyString
  | String x d => String c (String x d)
  end.
Proof. reflexivity. Qed.

Lemma trailingRe_decided (prev : option ascii) (s : string) :
  trailingRe prev s =
  if truthy s && allOf isTrailingPunctuation s then Some EmptyString else None.
Proof.
  unfold trailingRe, Re.plus_greedy, Re.one.
  destruct s as [|c t]; [reflexivity |]. simpl.
  destruct (isTrailingPunctuation c); [| reflexivity].
  rewrite star_greedy_longest by reflexivity.
  destruct (dropWhile isTrailingPunctuation t) eqn:E.
  - apply dropWhile_empty in E. now rewrite E.
  - destruct (allOf isTrailingPunctuation t) eqn:A; [| reflexivity].
    apply dropWhile_empty in A. congruence.
Qed.

Lemma search_trailing (s : string) :
  forall prev : option ascii,
    match Re.search_from trailingRe prev s with
    | Some (before, after) => before ++ after
    | None => s
    end = dropEnd isTrailingPunctuation s.
Proof.
  induction s as [|c t IH]; intros prev; [reflexivity |].
  cbn [Re.search_from]. rewrite trailingRe_decided.
  destruct (truthy (String c t) && allOf isTrailingPunctuation (String c t))
    eqn:E.
  - simpl in E. symmetry. now apply dropEnd_empty.
  - specialize (IH (Some c)). cbn [dropEnd].
    destruct (dropEnd isTrailingPunctuation t) as [|x d] eqn:D.
    + apply dropEnd_empty in D. simpl in E. rewrite D, andb_true_r in E.
      rewrite E.
      destruct (Re.search_from trailingRe (Some c) t) as [[b a]|]; simpl;
        now rewrite IH.
    + destruct (Re.search_from trailingRe (Some c) t) as [[b a]|]; simpl;
        now rewrite IH.
Qed.

(** The replacement strips the longest run of trailing punctuation. *)
Lemma stripTrailing_dropEnd (url : string) :
  stripTrailing url = dropEnd isTrailingPunctuation url.
Proof. unfold stripTrailing, Re.search. apply search_trailing. Qed.

(** Nothing is left to strip at the end of what [dropEnd] returns. *)
Lemma dropEnd_last (p : ascii -> bool) (s : string) :
  forall (a : string) (c : ascii),
    dropEnd p s = a ++ String c EmptyString -> p c = false.
Proof.
  induction s as [|x t IH]; intros a c H.
  - destruct a; discriminate.
  - rewrite dropEnd_cons in H.
    destruct (dropEnd p t) as [|y d] eqn:E.
    + destruct (p x) eqn:Ex; [destruct a; discriminate |].
      destruct a as [|z a]; [simpl in H; congruence |].
      inversion H. destruct a; discriminate.
    + destruct a as [|z a]; [discriminate |].
      inversion H. subst z. eapply IH. eassumption.
Qed.

(** The text without its trailing run of a class is the one prefix that
    is followed by code units of the class only and does not end in
    one. *)
Lemma dropEnd_unique (p : ascii -> bool) (stripped tail : string) :
  allOf p tail = true ->
  (forall a c, stripped = a ++ String c EmptyString -> p c = false) ->
  dropEnd p (stripped ++ tail) = stripped.
Proof.
  intros Ht. induction stripped as [|x r IH]; intros Hlast.
  - now apply dropEnd_empty.
  - cbn [append]. rewrite dropEnd_cons, IH.
    + destruct r as [|y d]; [| reflexivity].
      now rewrite (Hlast EmptyString x eq_refl).
    + intros a c ->. now apply (Hlast (String x a) c).
Qed.

(** The class of the trailing punctuation, code unit by code unit. *)
Lemma isTrailingPunctuation_spec (c : ascii) :
  isTrailingPunctuation c = true <->
  In c ["."; ","; ";"; "!"; "?"; ")"; "]"; ">"]%char.
Proof.
  destruct c as [[] [] [] [] [] [] [] []];
    (split; intros H;
     [ first [ discriminate H
             | simpl; repeat (first [left; reflexivity | right]) ]
     | first [ reflexivity
             | simpl in H; repeat (destruct H as [H | H]; try discriminate H);
               contradiction ] ]).
Qed.

Lemma takeWhile_append_all (p : ascii -> bool) (a b : string) :
  allOf p a = true ->
  takeWhile p (a ++ b) = a ++ takeWhile p b /\
  dropWhile p (a ++ b) = dropWhile p b.
Proof.
  induction a as [|x a IH]; simpl; intros H; [now split |].
  apply andb_true_iff in H as [Hx H]. rewrite Hx.
  destruct (IH H) as [-> ->]. now split.
Qed.

Lemma takeWhile_length (p : ascii -> bool) (s : string) :
  String.length s - String.length (dropWhile p s) =
  String.length (takeWhile p s).
Proof.
  rewrite <- (takeWhile_dropWhile p s) at 1. rewrite length_append. lia.
Qed.

Lemma truthy_takeWhile (p : ascii -> bool) (s : string) :
  truthy (takeWhile p s) =
  match s with String c _ => p c | EmptyString => false end.
Proof. destruct s as [|c t]; simpl; [reflexivity | now destruct (p c)]. Qed.

(** ** The words of a text *)

Lemma wordsFrom_spec (s : string) :
  wordsFrom s = (takeWhile isNonSpace s, words (dropWhile isNonSpace s)).
Proof.
  induction s as [|c t IH]; [reflexivity |].
  cbn [wordsFrom takeWhile dropWhile]. unfold isNonSpace at 1 3.
  destruct (isSpace c) eqn:Ec; cbn [negb].
  - unfold words at 1. cbn [wordsFrom]. rewrite Ec.
    destruct (wordsFrom t) as [w ws]. reflexivity.
  - rewrite IH. reflexivity.
Qed.

Lemma words_unfold (s : string) :
  words s =
  if truthy (takeWhile isNonSpace s)
  then takeWhile isNonSpace s :: words (dropWhile isNonSpace s)
  else words (dropWhile isNonSpace s).
Proof. unfold words at 1. now rewrite wordsFrom_spec. Qed.

Lemma words_space (c : ascii) (t : string) :
  isSpace c = true -> words (String c t) = words t.
Proof.
  intros Ec. unfold words. cbn [wordsFrom]. rewrite Ec.
  destruct (wordsFrom t) as [w ws]. reflexivity.
Qed.

(** The URL tokens of a text: that of its first word, if the text starts
    with one, and those of what follows it. *)
Lemma urlTokens_unfold (s : string) :
  urlTokens s =
  (urlOfWord (takeWhile isNonSpace s) ++
   urlTokens (dropWhile isNonSpace s))%list.
Proof.
  unfold urlTokens. rewrite words_unfold.
  destruct (takeWhile isNonSpace s) as [|c w] eqn:E; reflexivity.
Qed.

(** ** The expression for URLs *)

Lemma http_first_is_word (s : string) :
  prefix_ci "http" s = true -> isWordAt (first s) = true.
Proof.
  destruct s as [|b s]; [discriminate |]. intros H.
  cbn [prefix_ci] in H. apply andb_true_iff in H as [Hc _].
  destruct b as [[] [] [] [] [] [] [] []];
    first [reflexivity | vm_compute in Hc; discriminate Hc].
Qed.

Lemma letter_is_no_colon (x : string) :
  prefix_ci "s" x = true -> startsWith "://" x = false.
Proof.
  destruct x as [|b x]; [discriminate |]. intros H.
  cbn [prefix_ci] in H. apply andb_true_iff in H as [Hc _].
  destruct b as [[] [] [] [] [] [] [] []];
    first [reflexivity | vm_compute in Hc; discriminate Hc].
Qed.

Lemma canonical_punctuation (a b : ascii) :
  a = ":"%char \/ a = "/"%char ->
  (canonicalize a =? canonicalize b)%char = (a =? b)%char.
Proof.
  intros [-> | ->]; destruct b as [[] [] [] [] [] [] [] []]; reflexivity.
Qed.

Lemma prefix_ci_punctuation (x : string) :
  prefix_ci "://" x = startsWith "://" x.
Proof.
  destruct x as [|a x]; [reflexivity |]. cbn [prefix_ci startsWith].
  rewrite canonical_punctuation by now left.
  destruct x as [|b x]; [reflexivity |]. cbn [prefix_ci startsWith].
  rewrite canonical_punctuation by now right.
  destruct x as [|c x]; [reflexivity |]. cbn [prefix_ci startsWith].
  rewrite canonical_punctuation by now right.
  reflexivity.
Qed.

Lemma prefix_ci_app (l1 l2 : string) :
  forall s : string,
    prefix_ci (l1 ++ l2) s =
    prefix_ci l1 s && prefix_ci l2 (drop (String.length l1) s).
Proof.
  induction l1 as [|a l1 IH]; intros s.
  - now destruct s.
  - destruct s as [|b s]; [reflexivity |].
    cbn [append prefix_ci String.length drop]. rewrite IH.
    now rewrite andb_assoc.
Qed.

(** A literal without white space starts a text exactly when it starts
    the first word of the text. *)
Lemma prefix_ci_word (l : string) :
  allOf isNonSpace l = true ->
  forall s : string,
    prefix_ci l (takeWhile isNonSpace s) = prefix_ci l s.
Proof.
  induction l as [|a l IH]; intros Hl s; [reflexivity |].
  cbn [allOf] in Hl. apply andb_true_iff in Hl as [Ha Hl].
  destruct s as [|b s]; [reflexivity |].
  cbn [takeWhile prefix_ci].
  destruct (canonicalize a =? canonicalize b)%char eqn:Hc.
  - assert (Hb : isNonSpace b = true).
    { apply Ascii.eqb_eq in Hc. unfold isNonSpace in *.
      now rewrite <- (isSpace_canonicalize b), <- Hc, isSpace_canonicalize. }
    rewrite Hb. cbn [prefix_ci]. rewrite Hc. simpl. now apply IH.
  - destruct (isNonSpace b); cbn [prefix_ci]; [now rewrite Hc | reflexivity].
Qed.

Lemma drop_word (l : string) (s : string) :
  allOf isNonSpace l = true -> prefix_ci l s = true ->
  drop (String.length l) (takeWhile isNonSpace s) =
  takeWhile isNonSpace (drop (String.length l) s).
Proof.
  intros Hl Hp.
  destruct (prefix_ci_split l s Hp) as (h & Hs & Hlen & _ & Ha).
  rewrite Hl in Ha. rewrite Hs at 1.
  destruct (takeWhile_append_all isNonSpace h
              (drop (String.length l) s) Ha) as [-> _].
  rewrite <- Hlen. apply drop_append.
Qed.

(** Whether a scheme starts the first word of a text, read off the
    text. *)
Lemma hasScheme_word (l : string) (s : string) :
  allOf isNonSpace l = true ->
  prefix_ci l (takeWhile isNonSpace s) &&
  truthy (drop (String.length l) (takeWhile isNonSpace s)) =
  prefix_ci l s &&
  truthy (takeWhile isNonSpace (drop (String.length l) s)).
Proof.
  intros Hl. rewrite (prefix_ci_word l Hl).
  destruct (prefix_ci l s) eqn:Hp; [| reflexivity].
  now rewrite (drop_word l s Hl Hp).
Qed.

(** The end of [urlRegex] behind a scheme name without white space: it
    matches when the colon and the slashes come next and the word goes
    on behind them, and the match is the word. *)
Lemma url_body (s head x : string) :
  s = head ++ x -> allOf isNonSpace head = true ->
  Re.lit "://" x (fun s3 =>
    Re.plus_greedy isNonSpace s3 (fun _ s4 =>
      let n := String.length s - String.length s4 in
      Some (n, String.substring 0 n s))) =
  if startsWith "://" x && truthy (takeWhile isNonSpace (drop 3 x))
  then Some (String.length (takeWhile isNonSpace s), takeWhile isNonSpace s)
  else None.
Proof.
  intros Hs Hh. unfold Re.lit.
  destruct (startsWith "://" x) eqn:E; [| reflexivity].
  apply startsWith_spec in E as [s3 ->].
  rewrite drop_append. change (drop 3 ("://" ++ s3)) with s3.
  rewrite truthy_takeWhile. unfold Re.plus_greedy, Re.one.
  destruct s3 as [|c t]; [reflexivity |].
  destruct (isNonSpace c) eqn:Ec; [| reflexivity].
  erewrite star_greedy_first by reflexivity. cbn [andb].
  assert (Hd : dropWhile isNonSpace s = dropWhile isNonSpace t).
  { rewrite Hs.
    destruct (takeWhile_append_all isNonSpace head
                ("://" ++ String c t) Hh) as [_ ->].
    simpl. now rewrite Ec. }
  rewrite <- Hd, takeWhile_length.
  pose proof (substring_prefix (takeWhile isNonSpace s)
                (dropWhile isNonSpace s)) as Hsub.
  rewrite takeWhile_dropWhile in Hsub. now rewrite Hsub.
Qed.

(** [urlRegex] at a position: it matches exactly when no word character
    comes before the position and a scheme starts the word at the
    position, and what it matches is that word to its end. *)
Lemma urlRegex_decided (prev : option ascii) (s : string) :
  urlRegex prev s =
  if negb (isWordAt prev) && hasScheme (takeWhile isNonSpace s)
  then Some (String.length (takeWhile isNonSpace s), takeWhile isNonSpace s)
  else None.
Proof.
  unfold hasScheme.
  assert (H7 : prefix_ci "http://" (takeWhile isNonSpace s) &&
               truthy (drop 7 (takeWhile isNonSpace s)) =
               prefix_ci "http://" s &&
               truthy (takeWhile isNonSpace (drop 7 s)))
    by exact (hasScheme_word "http://" s eq_refl).
  assert (H8 : prefix_ci "https://" (takeWhile isNonSpace s) &&
               truthy (drop 8 (takeWhile isNonSpace s)) =
               prefix_ci "https://" s &&
               truthy (takeWhile isNonSpace (drop 8 s)))
    by exact (hasScheme_word "https://" s eq_refl).
  rewrite H7, H8. clear H7 H8.
  change "https://" with ("http" ++ "s" ++ "://").
  change "http://" with ("http" ++ "://").
  rewrite !prefix_ci_app, !prefix_ci_punctuation.
  unfold urlRegex, wordBoundary, lit_ci at 1.
  destruct (prefix_ci "http" s) eqn:Hh;
    [| rewrite andb_false_r; now destruct (xorb _ _)].
  rewrite (http_first_is_word s Hh), xorb_true_r.
  destruct (isWordAt prev); [reflexivity |]. cbn [negb andb].
  destruct (prefix_ci_split "http" s Hh) as (h & Hs & Hlen & Hp & Ha).
  change (allOf isNonSpace "http") with true in Ha.
  change (String.length ("http" ++ "s" ++ "://")) with 8.
  change (String.length ("http" ++ "://")) with 7.
  change (String.length "http") with 4 in *.
  change (String.length ("s" ++ "://")) with 4.
  change (String.length "s") with 1 in *.
  set (s1 := drop 4 s) in *.
  assert (D7 : drop 7 s = drop 3 s1) by (now rewrite Hs, <- Hlen; destruct h as [|? [|? [|? [|? [|? ?]]]]]).
  assert (D8 : drop 8 s = drop 3 (drop 1 s1)).
  { unfold s1. clear. destruct s as [|? [|? [|? [|? [|? ?]]]]]; reflexivity. }
  assert (D5 : drop 1 (drop 4 s) = drop 1 s1) by reflexivity.
  rewrite D7, D8. unfold opt_lit_ci, lit_ci.
  change (String.length "s") with 1.
  pose proof (url_body s h s1 Hs Ha) as K1. cbv zeta in K1. rewrite K1.
  destruct (prefix_ci "s" s1) eqn:Hss.
  - destruct (prefix_ci_split "s" s1 Hss) as (h' & Hs1 & Hlen' & Hp' & Ha').
    change (allOf isNonSpace "s") with true in Ha'.
    change (String.length "s") with 1 in *.
    assert (Hsplit : s = (h ++ h') ++ drop 1 s1)
      by (rewrite append_assoc, <- Hs1; exact Hs).
    assert (Hall : allOf isNonSpace (h ++ h') = true)
      by (now rewrite allOf_append, Ha, Ha').
    pose proof (url_body s (h ++ h') (drop 1 s1) Hsplit Hall) as K2.
    cbv zeta in K2. rewrite K2.
    rewrite (letter_is_no_colon s1 Hss). cbn [andb orb].
    now destruct (startsWith "://" (drop 1 s1) && _).
  - cbn [andb]. rewrite orb_false_r. reflexivity.
Qed.

Lemma space_is_no_word (c : ascii) : isSpace c = true -> isWord c = false.
Proof.
  destruct c as [[] [] [] [] [] [] [] []]; intros H;
    first [reflexivity | discriminate H].
Qed.

Lemma hasScheme_nonempty (w : string) : hasScheme w = true -> truthy w = true.
Proof. now destruct w. Qed.

Lemma urlFrom_boundary (p q : option ascii) (w : string) :
  isWordAt p = isWordAt q -> urlFrom p w = urlFrom q w.
Proof. intros H. destruct w as [|c w]; cbn [urlFrom]; now rewrite ?H. Qed.

Lemma urlTokens_space (c : ascii) (t : string) :
  isSpace c = true -> urlTokens (String c t) = urlTokens t.
Proof. intros Ec. unfold urlTokens. now rewrite (words_space c t Ec). Qed.

(** The scan for URLs, at a position outside a match and at a position
    inside one with as many code units to pass as the word has left:
    the matches are the URL token of the word at the position, if any,
    and the URL tokens of what follows the word. *)
Lemma scan_urls (s : string) :
  forall prev : option ascii,
    Re.hits (Re.scan_from urlRegex prev 0 s) =
    (match urlFrom prev (takeWhile isNonSpace s) with
     | Some token => [token]
     | None => []
     end ++ urlTokens (dropWhile isNonSpace s))%list /\
    Re.hits (Re.scan_from urlRegex prev
               (String.length (takeWhile isNonSpace s)) s) =
    urlTokens (dropWhile isNonSpace s).
Proof.
  induction s as [|c t IH]; intros prev.
  - split; cbn [Re.scan_from takeWhile String.length];
      rewrite urlRegex_decided; cbn [takeWhile]; unfold hasScheme;
      cbn [prefix_ci andb orb]; rewrite andb_false_r; reflexivity.
  - assert (Hnormal :
      Re.hits (Re.scan_from urlRegex prev 0 (String c t)) =
      (match urlFrom prev (takeWhile isNonSpace (String c t)) with
       | Some token => [token]
       | None => []
       end ++ urlTokens (dropWhile isNonSpace (String c t)))%list).
    { cbn [Re.scan_from]. rewrite urlRegex_decided.
      cbn [takeWhile dropWhile].
      destruct (isNonSpace c) eqn:Ec.
      - cbn [urlFrom String.length].
        destruct (negb (isWordAt prev) &&
                  hasScheme (String c (takeWhile isNonSpace t))) eqn:Em.
        + cbn [Re.hits app]. f_equal. apply IH.
        + cbn [Re.hits]. apply IH.
      - apply negb_false_iff in Ec.
        unfold hasScheme. cbn [prefix_ci andb orb]. rewrite andb_false_r.
        cbn [urlFrom Re.hits app].
        destruct (IH (Some c)) as [-> _].
        rewrite (urlTokens_space c t Ec), (urlTokens_unfold t).
        f_equal. unfold urlOfWord.
        rewrite (urlFrom_boundary (Some c) None); [reflexivity |].
        cbn [isWordAt]. now apply space_is_no_word. }
    split; [exact Hnormal |].
    destruct (isNonSpace c) eqn:Ec.
    + cbn [takeWhile dropWhile]. rewrite Ec.
      cbn [String.length Re.scan_from]. apply IH.
    + cbn [takeWhile dropWhile]. rewrite Ec. cbn [String.length].
      rewrite Hnormal. cbn [takeWhile dropWhile]. rewrite Ec. reflexivity.
Qed.

(** The URLs extracted from a text are the URL tokens of its words. *)
Lemma extractedUrls_tokens (text : string) :
  extractedUrls text = urlTokens text.
Proof.
  unfold extractedUrls, Re.scan.
  destruct (scan_urls text None) as [-> _].
  now rewrite (urlTokens_unfold text).
Qed.

Variable API_KEY : option string.
Variable generateContent :
  Request -> completion BackendFailure Genai.GenerateContentResponse.
Variable newURL : string -> option Url.URL.

(** The uris of the related links: the cleaned URLs, once each, in the
    order of their first occurrence, without those of the sources. *)
Lemma relatedLinks_uris (text : string) (sources : list GroundingSource) :
  map uri (relatedLinksOf newURL text sources) =
  filter (fun url => negb (has (setOf (map uri sources)) url))
    (setOf (choose (cleanUrl newURL) (extractedUrls text))).
Proof. unfold relatedLinksOf. apply uris_of_links. Qed.

Lemma href_clearHash (url : Url.URL) :
  Url.href (Url.clearHash url) = Url.withoutFragment url.
Proof. unfold Url.href, Url.clearHash. simpl. apply append_empty_r. Qed.

Lemma relatedLinks_in (text : string) (sources : list GroundingSource)
    (url : string) :
  In url (map uri (relatedLinksOf newURL text sources)) <->
  ~ In url (map uri sources) /\
  exists token parsed,
    In token (extractedUrls text) /\
    newURL (stripTrailing token) = Some parsed /\
    url = Url.withoutFragment parsed.
Proof.
  rewrite relatedLinks_uris, filter_In, negb_true_iff.
  destruct (setOf_spec (choose (cleanUrl newURL)
                          (extractedUrls text))) as [_ Hc].
  destruct (setOf_spec (map uri sources)) as [_ Hs].
  rewrite Hc, in_choose.
  assert (Hclean :
    (exists x, In x (extractedUrls text) /\ cleanUrl newURL x = Some url) <->
    (exists token parsed,
       In token (extractedUrls text) /\
       newURL (stripTrailing token) = Some parsed /\
       url = Url.withoutFragment parsed)).
  { unfold cleanUrl. split.
    - intros (x & Hx & E).
      destruct (newURL (stripTrailing x)) as [u|] eqn:Eu; [| discriminate].
      exists x, u. rewrite href_clearHash in E. inversion E. now repeat split.
    - intros (x & u & Hx & Eu & ->). exists x. split; [exact Hx |].
      now rewrite Eu, href_clearHash. }
  rewrite Hclean. split.
  - intros [Hin Hhas]. split; [| exact Hin].
    intros H. apply Hs, has_spec in H. congruence.
  - intros [Hn Hin]. split; [exact Hin |].
    destruct (has (setOf (map uri sources)) url) eqn:E; [| reflexivity].
    apply has_spec, Hs in E. contradiction.
Qed.

Lemma relatedLinks_NoDup (text : string) (sources : list GroundingSource) :
  NoDup (map uri (relatedLinksOf newURL text sources)).
Proof.
  rewrite relatedLinks_uris. apply NoDup_filter.
  apply setOf_spec.
Qed.

Lemma relatedLinks_titles (text : string) (sources : list GroundingSource) :
  Forall (fun link => title link = uri link)
    (relatedLinksOf newURL text sources).
Proof.
  unfold relatedLinksOf. apply Forall_forall. intros link H.
  apply in_map_iff in H as (url & <- & _). reflexivity.
Qed.

(** The answer of a chat turn whose reply has a text. *)
Lemma chat_answer (userMessage : string) (context : ChatContext)
    (useSearch : bool) (history : list Genai.Content) (modelName : string)
    (response : Genai.GenerateContentResponse) (text : string) :
  truthy_opt API_KEY = true ->
  generateContent (chatRequest context useSearch history modelName) =
    Returned response ->
  Genai.text response = Some text ->
  getFollowUpResponse API_KEY generateContent newURL userMessage
    context useSearch history modelName =
  Returned
    (mkChatResponse text (groundingOf response)
       (relatedLinksOf newURL text (groundingOf response))).
Proof.
  intros K G T. unfold getFollowUpResponse, answerFollowUp.
  rewrite K, G. simpl. rewrite T. reflexivity.
Qed.

End RelatedLinks.

Example extractedUrls_example :
  GeminiService.extractedUrls
    "See [1] and https://b.com/x#frag. Also (HTTP://c.org/y), xhttp://no.org and http://"
  = ["https://b.com/x#frag."; "HTTP://c.org/y),"] /\
  GeminiService.stripTrailing "https://b.com/x#frag." = "https://b.com/x#frag" /\
  GeminiService.stripTrailing "HTTP://c.org/y)," = "HTTP://c.org/y".
Proof. vm_compute. repeat split. Qed.

Example relatedLinks_example :
  GeminiService.relatedLinksOf Sample.parseUrl
    "See [1] and https://b.com/x#frag." [mkSource "https://a.com" "A"]
  = [mkSource "https://b.com/x" "https://b.com/x"] /\
  GeminiService.urlTokens
    "See [1] and https://b.com/x#frag. Also (HTTP://c.org/y), xhttp://no.org and http://"
  = ["https://b.com/x#frag."; "HTTP://c.org/y),"].
Proof. vm_compute. repeat split. Qed.

(** C6. A chat turn whose reply has a text returns that text as it is,
    the sources of the grounding channel, and related links such that:
    no uri occurs twice; the title of a link is its uri; a URL is the
    uri of a link exactly when it is not the uri of a source and is the
    serialization without fragment of what the URL parser returns for a
    URL token of the text without its trailing punctuation. The URL
    tokens are those of the words of the text: a word gives the token
    that runs from its first place where [http://] or [https://], in
    either case and with something behind it, starts after no word
    character, to its end. The trailing punctuation of a token is its
    longest suffix made of the code units [. , ; ! ? ) ] >]. *)
Theorem chat_related_links :
  forall (API_KEY : option string)
    (generateContent :
       GeminiService.Request ->
       Js.completion GeminiService.BackendFailure Genai.GenerateContentResponse)
    (newURL : string -> option Url.URL)
    (userMessage : string) (context : GeminiService.ChatContext)
    (useSearch : bool) (history : list Genai.Content) (modelName : string)
    (response : Genai.GenerateContentResponse) (text : string),
    Js.truthy_opt API_KEY = true ->
    generateContent
      (GeminiService.chatRequest context useSearch history modelName)
    = Js.Returned response ->
    Genai.text response = Some text ->
    exists links,
      GeminiService.getFollowUpResponse API_KEY generateContent newURL
        userMessage context useSearch history modelName
      = Js.Returned
          (GeminiService.mkChatResponse text
             (GeminiService.groundingOf response) links) /\
      NoDup (map uri links) /\
      Forall (fun link => title link = uri link) links /\
      (forall url,
         In url (map uri links) <->
         ~ In url (map uri (GeminiService.groundingOf response)) /\
         exists token stripped punctuation parsed,
           In token (GeminiService.urlTokens text) /\
           token = stripped ++ punctuation /\
           Js.allOf GeminiService.isTrailingPunctuation punctuation = true /\
           (forall a c,
              stripped = a ++ String c EmptyString ->
              GeminiService.isTrailingPunctuation c = false) /\
           newURL stripped = Some parsed /\
           url = Url.withoutFragment parsed) /\
      GeminiService.extractedUrls text = GeminiService.urlTokens text /\
      (forall c,
         GeminiService.isTrailingPunctuation c = true <->
         In c ["."; ","; ";"; "!"; "?"; ")"; "]"; ">"]%char).
Proof.
  intros API_KEY generateContent newURL userMessage context useSearch
    history modelName response text K G T.
  exists (GeminiService.relatedLinksOf newURL text
            (GeminiService.groundingOf response)).
  split; [now apply chat_answer |].
  split; [apply relatedLinks_NoDup |].
  split; [apply relatedLinks_titles |].
  split; [| split; [apply extractedUrls_tokens
                   | apply isTrailingPunctuation_spec]].
  intros url. rewrite relatedLinks_in, extractedUrls_tokens. split.
  - intros (Hn & token & parsed & Hin & Hp & ->). split; [exact Hn |].
    rewrite stripTrailing_dropEnd in Hp.
    destruct (dropEnd_split GeminiService.isTrailingPunctuation token)
      as (tail & Ht & Ha).
    exists token, (Js.dropEnd GeminiService.isTrailingPunctuation token),
      tail, parsed.
    repeat split; try assumption.
    intros a c E. exact (dropEnd_last _ _ _ _ E).
  - intros (Hn & token & stripped & tail & parsed & Hin & -> & Ha & Hl
            & Hp & ->).
    split; [exact Hn |]. exists (stripped ++ tail), parsed.
    split; [exact Hin |]. split; [| reflexivity].
    now rewrite stripTrailing_dropEnd, (dropEnd_unique _ _ _ Ha Hl).
Qed.

Lemma chat_related_links_witness :
  exists links,
    GeminiService.getFollowUpResponse Sample.key
      (Sample.replying
         (Genai.mkResponse
            (Some "See [1] and https://b.com/x. Also (https://c.org/y#top), https://a.com/p and https://b.com/x#again")
            (Some [Genai.mkChunk
                     (Some (Genai.mkWeb (Some "https://a.com/p") (Some "A")))])
            None))
      Sample.parseUrl "why?"
      (GeminiService.mkChatContext "q" "a" "Q: q A: a") true [] "gemini-2.5-pro"
    = Js.Returned
        (GeminiService.mkChatResponse
           "See [1] and https://b.com/x. Also (https://c.org/y#top), https://a.com/p and https://b.com/x#again"
           [mkSource "https://a.com/p" "A"] links) /\
    links = [mkSource "https://b.com/x" "https://b.com/x";
             mkSource "https://c.org/y" "https://c.org/y"].
Proof.
  destruct (chat_related_links Sample.key
              (Sample.replying
                 (Genai.mkResponse
                    (Some "See [1] and https://b.com/x. Also (https://c.org/y#top), https://a.com/p and https://b.com/x#again")
                    (Some [Genai.mkChunk
                             (Some (Genai.mkWeb (Some "https://a.com/p")
                                      (Some "A")))])
                    None))
              Sample.parseUrl "why?"
              (GeminiService.mkChatContext "q" "a" "Q: q A: a") true []
              "gemini-2.5-pro" _
              "See [1] and https://b.com/x. Also (https://c.org/y#top), https://a.com/p and https://b.com/x#again"
              eq_refl eq_refl eq_refl)
    as (links & Hr & _).
  exists links. split; [exact Hr |].
  vm_compute in Hr. now inversion Hr.
Defined.

Example extractJson_examples :
  let ex := GeminiService.extractJson in
  let nl := Js.nl in
  let failed :=
    Js.Threw (GeminiService.Exn GeminiService.PlainError
                GeminiService.nonJsonMessage) in
  ex ("Here:" ++ nl ++ "```json" ++ nl ++ "[1]" ++ nl ++ "```" ++ nl ++ "bye")
    = Js.Returned "[1]" /\
  ex ("```" ++ nl ++ "[1]" ++ nl ++ "```") = Js.Returned "[1]" /\
  ex "``` ``` {x}" = Js.Returned "{x}" /\
  ex "no json here" = failed /\
  ex "[1] and [2]" = Js.Returned "[1] and [2]" /\
  ex "x { a [ b } c ] d" = Js.Returned "{ a [ b }" /\
  ex "] [ x } {" = failed /\
  ex "```json```" = failed /\
  ex ("```js" ++ nl ++ "[1]" ++ nl ++ "```") = Js.Returned ("js" ++ nl ++ "[1]") /\
  ex "````[1]```" = Js.Returned "`[1]" /\
  ex "```json  {a}  ``` and ```[2]```" = Js.Returned "{a}" /\
  ex "Use `x` then [1] ok" = Js.Returned "[1]" /\
  ex "[ a { b } c" = Js.Returned "{ b }" /\
  ex "a ``` b" = failed /\
  ex "``` [1] `` ` ```" = Js.Returned "[1] `` `".
Proof. vm_compute. repeat split. Qed.

(** ** The extraction of the text to parse *)

Section Extraction.

Import Js GeminiService.

Lemma star_lazy_ext (R : Type) (p : ascii -> bool) (s : string) :
  forall k1 k2 : string -> string -> option R,
    (forall m rest, k1 m rest = k2 m rest) ->
    Re.star_lazy p s k1 = Re.star_lazy p s k2.
Proof.
  induction s as [|c t IH]; intros k1 k2 H; simpl; rewrite H.
  - reflexivity.
  - destruct (k2 EmptyString (String c t)); [reflexivity |].
    destruct (p c); [| reflexivity].
    apply IH. intros m rest. apply H.
Qed.

Lemma star_greedy_ext (R : Type) (p : ascii -> bool) (s : string) :
  forall k1 k2 : string -> string -> option R,
    (forall m rest, k1 m rest = k2 m rest) ->
    Re.star_greedy p s k1 = Re.star_greedy p s k2.
Proof.
  induction s as [|c t IH]; intros k1 k2 H; simpl; rewrite H.
  - reflexivity.
  - destruct (p c); [| reflexivity].
    rewrite (IH (fun m rest => k1 (String c m) rest)
                (fun m rest => k2 (String c m) rest));
      [reflexivity | intros m rest; apply H].
Qed.

(** The lazy star over any code unit stops at the first position where
    the rest of the expression matches. *)
Lemma star_lazy_any (R : Type) (q : string -> bool) (s : string) :
  forall h : string -> R,
    Re.star_lazy isAny s (fun m rest => if q rest then Some (h m) else None) =
    match lazyUntil q s with
    | Some m => Some (h m)
    | None => None
    end.
Proof.
  induction s as [|c t IH]; intros h; simpl.
  - destruct (q EmptyString); reflexivity.
  - destruct (q (String c t)); [reflexivity |].
    rewrite (IH (fun m => h (String c m))).
    destruct (lazyUntil q t); reflexivity.
Qed.

(** A greedy star whose consumed text is not used, in front of a
    continuation that does not gain from a shorter run: only the longest
    run matters. *)
Lemma star_greedy_ignore (R : Type) (p : ascii -> bool)
    (k : string -> option R) :
  (forall c t, p c = true -> k t = None -> k (String c t) = None) ->
  forall s, Re.star_greedy p s (fun _ rest => k rest) = k (dropWhile p s).
Proof.
  intros Hk.
  assert (Hback : forall u, k (dropWhile p u) = None -> k u = None).
  { induction u as [|c u IH]; simpl; [auto |].
    destruct (p c) eqn:E; [| auto]. intros H. apply Hk; auto. }
  induction s as [|c t IH]; simpl; [reflexivity |].
  destruct (p c) eqn:E; [| reflexivity].
  rewrite IH. destruct (k (dropWhile p t)) eqn:K; [reflexivity |].
  apply Hk; auto.
Qed.

(** The end of [fenceRe]: white space and the closing fence. *)
Lemma closing_decided (group2 s4 : string) :
  Re.star_greedy isSpace s4 (fun _ s5 =>
    Re.lit fence s5 (fun _ => Some group2)) =
  if closesFence s4 then Some group2 else None.
Proof.
  rewrite star_greedy_longest.
  - unfold Re.lit, closesFence.
    now destruct (startsWith fence (dropWhile isSpace s4)).
  - intros m c t Hc. apply lit_mismatch. intros <-. discriminate Hc.
Qed.

Lemma lazy_group (s3 : string) :
  Re.star_lazy isAny s3 (fun group2 s4 =>
    Re.star_greedy isSpace s4 (fun _ s5 =>
      Re.lit fence s5 (fun _ => Some group2))) =
  lazyUntil closesFence s3.
Proof.
  rewrite (star_lazy_ext _ isAny s3 _
             (fun group2 s4 => if closesFence s4 then Some group2 else None)
             closing_decided).
  rewrite (star_lazy_any _ closesFence s3 (fun m => m)).
  now destruct (lazyUntil closesFence s3).
Qed.

Lemma closesFence_space (c : ascii) (t : string) :
  isSpace c = true -> closesFence (String c t) = closesFence t.
Proof. intros H. unfold closesFence. simpl. now rewrite H. Qed.

Lemma lazyUntil_none (q : string -> bool) (t : string) :
  lazyUntil q t = None -> q t = false.
Proof. destruct t; simpl; destruct (q _); (discriminate || reflexivity). Qed.

Lemma lazyUntil_space (c : ascii) (t : string) :
  isSpace c = true ->
  lazyUntil closesFence t = None ->
  lazyUntil closesFence (String c t) = None.
Proof.
  intros Hc Ht. cbn [lazyUntil].
  now rewrite (closesFence_space c t Hc), (lazyUntil_none _ _ Ht), Ht.
Qed.

(** What follows the opening fence and the optional tag: white space,
    then the shortest text behind which a fence closes. *)
Lemma fence_body (s2 : string) :
  Re.star_greedy isSpace s2 (fun _ s3 =>
    Re.star_lazy isAny s3 (fun group2 s4 =>
      Re.star_greedy isSpace s4 (fun _ s5 =>
        Re.lit fence s5 (fun _ => Some group2)))) =
  lazyUntil closesFence (dropWhile isSpace s2).
Proof.
  rewrite (star_greedy_ext _ isSpace s2 _
             (fun _ s3 => lazyUntil closesFence s3)
             (fun _ s3 => lazy_group s3)).
  apply (star_greedy_ignore _ isSpace (lazyUntil closesFence)).
  intros c t. apply lazyUntil_space.
Qed.

(** What [fenceRe] decides at a position. *)
Lemma fenceRe_decided (prev : option ascii) (s : string) :
  fenceRe prev s =
  if startsWith fence s then
    let s1 := drop (String.length fence) s in
    match
      (if startsWith "json" s1
       then lazyUntil closesFence
              (dropWhile isSpace (drop (String.length "json") s1))
       else None)
    with
    | Some group2 => Some group2
    | None => lazyUntil closesFence (dropWhile isSpace s1)
    end
  else None.
Proof.
  unfold fenceRe. unfold Re.lit at 1.
  destruct (startsWith fence s); [| reflexivity].
  unfold Re.opt_lit. unfold Re.lit at 1.
  cbv zeta. rewrite !fence_body.
  destruct (startsWith "json" (drop (String.length fence) s)); reflexivity.
Qed.

Lemma lacks_cons (ch c : ascii) (t : string) :
  lacks ch (String c t) = true <-> c <> ch /\ lacks ch t = true.
Proof.
  unfold lacks. simpl. rewrite andb_true_iff, negb_true_iff, Ascii.eqb_neq.
  tauto.
Qed.

(** The greedy star over any code unit in front of a literal of one code
    unit stops at the last occurrence of that code unit. *)
Lemma star_greedy_any (R : Type) (ch : ascii) (s : string) :
  forall h : string -> R,
    Re.star_greedy isAny s (fun m rest =>
      Re.lit (String ch EmptyString) rest (fun _ => Some (h m))) =
    match beforeLast ch s with
    | Some m => Some (h m)
    | None => None
    end.
Proof.
  induction s as [|x t IH]; intros h; simpl; [reflexivity |].
  rewrite (IH (fun m => h (String x m))), lit_char.
  destruct (beforeLast ch t); [reflexivity |].
  destruct (ch =? x)%char; reflexivity.
Qed.

Lemma delimitedRe_decided (o c : ascii) (s : string) :
  delimitedRe (String o EmptyString) (String c EmptyString) s =
  match s with
  | String x t =>
      if (o =? x)%char then
        match beforeLast c t with
        | Some inner =>
            Some (String o EmptyString ++ inner ++ String c EmptyString)
        | None => None
        end
      else None
  | EmptyString => None
  end.
Proof.
  unfold delimitedRe. rewrite lit_char.
  destruct s as [|x t]; [reflexivity |].
  destruct (o =? x)%char; [| reflexivity].
  apply (star_greedy_any _ c t
           (fun inner =>
              String o EmptyString ++ inner ++ String c EmptyString)).
Qed.

Lemma beforeLast_none (ch : ascii) (s : string) :
  lacks ch s = true -> beforeLast ch s = None.
Proof.
  induction s as [|x t IH]; intros H; [reflexivity |].
  apply lacks_cons in H as [Hx H]. simpl. rewrite (IH H).
  apply Ascii.eqb_neq in Hx. rewrite Ascii.eqb_sym in Hx. now rewrite Hx.
Qed.

Lemma beforeLast_last (ch : ascii) (inner post : string) :
  lacks ch post = true ->
  beforeLast ch (inner ++ String ch post) = Some inner.
Proof.
  intros H. induction inner as [|x inner IH]; simpl.
  - now rewrite (beforeLast_none ch post H), Ascii.eqb_refl.
  - now rewrite IH.
Qed.

(** ** The extraction, for every text *)

Lemma lazyUntil_here (q : string -> bool) (t : string) :
  q t = true -> lazyUntil q t = Some EmptyString.
Proof. intros H. destruct t; simpl; now rewrite H. Qed.

Lemma lazyUntil_empty (q : string -> bool) (t : string) :
  lazyUntil q t = Some EmptyString -> q t = true.
Proof.
  destruct t as [|c t]; simpl; destruct (q _); try reflexivity;
    try discriminate.
  destruct (lazyUntil q t); discriminate.
Qed.

Lemma space_is_no_backtick (c : ascii) :
  isSpace c = true -> ("`" =? c)%char = false.
Proof.
  intros H. destruct ("`" =? c)%char eqn:E; [| reflexivity].
  apply Ascii.eqb_eq in E. subst c. discriminate H.
Qed.

Lemma closesFence_other (c : ascii) (t : string) :
  isSpace c = false ->
  closesFence (String c t) = startsWith fence (String c t).
Proof. intros H. unfold closesFence. simpl. now rewrite H. Qed.

(** The lazy group ends before the first fence behind it, and before
    the white space in front of that fence. *)
Lemma lazyUntil_cut (x : string) :
  lazyUntil closesFence x =
  match cut fence x with
  | Some (inner, _) => Some (trimEnd inner)
  | None => None
  end.
Proof.
  induction x as [|c t IH]; [reflexivity |].
  cbn [lazyUntil cut].
  destruct (startsWith fence (String c t)) eqn:Es.
  - destruct (isSpace c) eqn:Hc.
    + apply space_is_no_backtick in Hc. simpl in Es. now rewrite Hc in Es.
    + now rewrite (closesFence_other c t Hc), Es.
  - destruct (closesFence (String c t)) eqn:Ec.
    + destruct (isSpace c) eqn:Hc;
        [| rewrite (closesFence_other c t Hc) in Ec; congruence].
      rewrite (closesFence_space c t Hc) in Ec.
      rewrite (lazyUntil_here _ _ Ec) in IH.
      destruct (cut fence t) as [[a b]|]; [| discriminate IH].
      inversion IH as [Ha]. unfold trimEnd in *. rewrite dropEnd_cons.
      now rewrite <- Ha, Hc.
    + pose proof IH as IH'. rewrite IH.
      destruct (cut fence t) as [[a b]|]; [| reflexivity].
      f_equal. unfold trimEnd in *. rewrite dropEnd_cons.
      destruct (dropEnd isSpace a) eqn:D; [| reflexivity].
      destruct (isSpace c) eqn:Hc; [| reflexivity].
      rewrite (closesFence_space c t Hc) in Ec.
      apply lazyUntil_empty in IH'. congruence.
Qed.

Lemma cut_none (sep s : string) :
  cut sep s = None <-> includes sep s = false.
Proof.
  induction s as [|c t IH]; cbn [cut includes].
  - destruct (startsWith sep EmptyString); simpl; split; congruence.
  - destruct (startsWith sep (String c t)); simpl; [split; discriminate |].
    destruct (cut sep t) as [[a b]|].
    + split; [discriminate |]. intros H. apply IH in H. discriminate.
    + split; [intros _; now apply IH | reflexivity].
Qed.

Lemma startsWith_drop (sep s : string) :
  startsWith sep s = true -> s = sep ++ drop (String.length sep) s.
Proof.
  intros H. apply startsWith_spec in H as [post ->].
  now rewrite drop_append.
Qed.

Lemma cut_split (sep s : string) :
  forall a b : string, cut sep s = Some (a, b) -> s = a ++ sep ++ b.
Proof.
  induction s as [|c t IH]; intros a b; cbn [cut].
  - destruct (startsWith sep EmptyString) eqn:E; [| discriminate].
    intros H. inversion H. now apply startsWith_drop.
  - destruct (startsWith sep (String c t)) eqn:E.
    + intros H. inversion H. now apply startsWith_drop.
    + destruct (cut sep t) as [[a0 b0]|]; [| discriminate].
      intros H. inversion H. subst. simpl. f_equal. now apply IH.
Qed.

(** [cut] splits a text at the first occurrence of the separator. *)
Lemma cut_first (sep s a b : string) :
  cut sep s = Some (a, b) <->
  s = a ++ sep ++ b /\
  forall a' b', s = a' ++ sep ++ b' -> String.length a <= String.length a'.
Proof.
  assert (Hfwd : forall s a b,
            cut sep s = Some (a, b) ->
            forall a' b', s = a' ++ sep ++ b' ->
                          String.length a <= String.length a').
  { clear. induction s as [|c t IH]; intros a b; cbn [cut].
    - destruct (startsWith sep EmptyString); [| discriminate].
      intros H. inversion H. simpl. intros; lia.
    - destruct (startsWith sep (String c t)) eqn:E.
      + intros H. inversion H. simpl. intros; lia.
      + destruct (cut sep t) as [[a0 b0]|] eqn:C; [| discriminate].
        intros H. inversion H. subst. intros a' b' Hs.
        destruct a' as [|x a'].
        * simpl in Hs. rewrite Hs, startsWith_append in E. discriminate.
        * inversion Hs. subst. simpl.
          apply le_n_S. now apply (IH a0 b eq_refl a' b'). }
  split.
  - intros H. split; [now apply cut_split | now apply (Hfwd s a b)].
  - intros [Hs Hmin].
    destruct (cut sep s) as [[a1 b1]|] eqn:C.
    + pose proof (cut_split _ _ _ _ C) as Hs1.
      pose proof (Hfwd _ _ _ C a b Hs) as H1.
      pose proof (Hmin a1 b1 Hs1) as H2.
      assert (Hlen : String.length a = String.length a1) by lia.
      clear - Hs Hs1 Hlen. subst s. revert a1 Hs1 Hlen.
      induction a as [|x a IH]; intros [|y a1] Hs1 Hlen; try discriminate.
      * simpl in Hs1.
        assert (E : b1 = b).
        { clear - Hs1. revert Hs1. induction sep as [|z sep IHs]; simpl;
            [auto | intros H; inversion H; auto]. }
        now subst.
      * inversion Hs1. subst. simpl in Hlen.
        assert (Hl : String.length a = String.length a1) by lia.
        specialize (IH a1 H1 Hl). now inversion IH.
    + apply cut_none in C.
      assert (includes sep s = true)
        by (apply includes_spec; now exists a, b).
      congruence.
Qed.

Lemma beforeLast_lacks (ch : ascii) (s : string) :
  beforeLast ch s = None -> lacks ch s = true.
Proof.
  induction s as [|x t IH]; [reflexivity |]. cbn [beforeLast].
  destruct (beforeLast ch t); [discriminate |].
  destruct (ch =? x)%char eqn:E; [discriminate |]. intros _.
  apply lacks_cons. split; [| now apply IH].
  apply Ascii.eqb_neq in E. congruence.
Qed.

(** [beforeLast] splits a text at the last occurrence of the code
    unit. *)
Lemma beforeLast_spec (ch : ascii) (s m : string) :
  beforeLast ch s = Some m <->
  exists post, s = m ++ String ch post /\ lacks ch post = true.
Proof.
  split.
  - revert m. induction s as [|x t IH]; intros m; [discriminate |].
    cbn [beforeLast]. destruct (beforeLast ch t) as [m0|] eqn:B.
    + intros H. inversion H. subst m.
      destruct (IH m0 eq_refl) as (post & -> & Hp). now exists post.
    + destruct (ch =? x)%char eqn:E; [| discriminate].
      intros H. inversion H. subst m. apply Ascii.eqb_eq in E. subst x.
      exists t. split; [reflexivity | now apply beforeLast_lacks].
  - intros (post & -> & Hp). now apply beforeLast_last.
Qed.

Lemma includes_fence_skip (c : ascii) (t : string) :
  ("`" =? c)%char = false -> includes fence (String c t) = includes fence t.
Proof. intros H. cbn [includes]. simpl startsWith. now rewrite H. Qed.

Lemma includes_fence_dropWhile (s : string) :
  includes fence (dropWhile isSpace s) = includes fence s.
Proof.
  induction s as [|c t IH]; [reflexivity |]. cbn [dropWhile].
  destruct (isSpace c) eqn:Hc; [| reflexivity].
  now rewrite IH, (includes_fence_skip c t (space_is_no_backtick c Hc)).
Qed.

Lemma includes_fence_stripTag (s : string) :
  includes fence (stripTag s) = includes fence s.
Proof.
  unfold stripTag. destruct (startsWith "json" s) eqn:E; [| reflexivity].
  apply startsWith_spec in E as [r ->].
  change 4 with (String.length "json"). rewrite drop_append.
  simpl append. now rewrite !includes_fence_skip by reflexivity.
Qed.

(** Behind an opening fence there is a content exactly when there is
    another fence. *)
Lemma fenceContent_none (rest : string) :
  fenceContent rest = None <-> includes fence rest = false.
Proof.
  unfold fenceContent, trimStart.
  rewrite <- (includes_fence_stripTag rest).
  rewrite <- (includes_fence_dropWhile (stripTag rest)).
  rewrite <- cut_none.
  destruct (cut fence (dropWhile isSpace (stripTag rest))) as [[a b]|];
    split; congruence.
Qed.

(** What [fenceRe] decides at a position, in the words of the
    content. *)
Lemma fenceRe_spec (prev : option ascii) (s : string) :
  fenceRe prev s =
  if startsWith fence s then fenceContent (drop 3 s) else None.
Proof.
  rewrite fenceRe_decided. destruct (startsWith fence s); [| reflexivity].
  cbv zeta. change (String.length fence) with 3.
  change (String.length "json") with 4.
  set (s1 := drop 3 s).
  destruct (startsWith "json" s1) eqn:E.
  - assert (Hc : fenceContent s1 =
                 lazyUntil closesFence (dropWhile isSpace (drop 4 s1))).
    { unfold fenceContent, stripTag, trimStart. rewrite E.
      now rewrite lazyUntil_cut. }
    rewrite <- Hc. destruct (fenceContent s1) eqn:F; [reflexivity |].
    apply fenceContent_none in F.
    rewrite lazyUntil_cut.
    assert (Hn : cut fence (dropWhile isSpace s1) = None)
      by (apply cut_none; now rewrite includes_fence_dropWhile).
    now rewrite Hn.
  - unfold fenceContent, stripTag, trimStart. rewrite E.
    now rewrite lazyUntil_cut.
Qed.

Lemma drop_append_within (n : nat) :
  forall a b : string,
    n <= String.length a -> drop n (a ++ b) = drop n a ++ b.
Proof.
  induction n as [|n IH]; intros a b H; [reflexivity |].
  destruct a as [|x a]; [simpl in H; lia |].
  simpl. apply IH. simpl in H. lia.
Qed.

Lemma includes_behind (needle a b : string) :
  includes needle b = true -> includes needle (a ++ b) = true.
Proof.
  intros H. induction a as [|x a IH]; [exact H |].
  simpl append. cbn [includes]. now rewrite IH, orb_true_r.
Qed.

(** The search for a fenced block stops at the first fence of the text:
    when no fence follows it, no later position matches either. *)
Lemma search_fence (s : string) :
  forall prev : option ascii,
    Re.search_from fenceRe prev s =
    match cut fence s with
    | Some (before, rest) =>
        match fenceContent rest with
        | Some group2 => Some (before, group2)
        | None => None
        end
    | None => None
    end.
Proof.
  induction s as [|c t IH]; intros prev; [reflexivity |].
  cbn [Re.search_from cut]. rewrite fenceRe_spec.
  change (String.length fence) with 3.
  destruct (startsWith fence (String c t)) eqn:E.
  - destruct (fenceContent (drop 3 (String c t))) eqn:G; [reflexivity |].
    rewrite IH.
    destruct (cut fence t) as [[b' rest']|] eqn:Ct; [| reflexivity].
    assert (Hn : fenceContent rest' = None).
    { apply fenceContent_none. apply fenceContent_none in G.
      destruct (includes fence rest') eqn:I; [| reflexivity].
      apply cut_split in Ct. subst t.
      assert (H : includes fence (drop 2 ((b' ++ fence) ++ rest')) = true).
      { rewrite drop_append_within
          by (rewrite length_append; simpl; lia).
        now apply includes_behind. }
      rewrite append_assoc in H.
      change (drop 3 (String c (b' ++ fence ++ rest')))
        with (drop 2 (b' ++ fence ++ rest')) in G.
      congruence. }
    now rewrite Hn.
  - rewrite IH. destruct (cut fence t) as [[b' rest']|]; [| reflexivity].
    now destruct (fenceContent rest').
Qed.

(** The fallback takes the widest span. *)
Lemma search_raw (s : string) :
  forall prev : option ascii,
    match Re.search_from rawJsonRe prev s with
    | Some (_, whole) => Some whole
    | None => None
    end = widestSpan s.
Proof.
  induction s as [|c t IH]; intros prev; [reflexivity |].
  cbn [Re.search_from widestSpan]. unfold rawJsonRe at 1.
  rewrite !delimitedRe_decided. unfold closerOf.
  rewrite (Ascii.eqb_sym "{" c), (Ascii.eqb_sym "[" c).
  specialize (IH (Some c)).
  destruct (c =? "{")%char eqn:E1.
  - apply Ascii.eqb_eq in E1. subst c.
    destruct (beforeLast "}" t) as [inner|]; [reflexivity |].
    simpl. destruct (Re.search_from rawJsonRe (Some "{"%char) t) as [[? ?]|];
      exact IH.
  - destruct (c =? "[")%char eqn:E2.
    + apply Ascii.eqb_eq in E2. subst c.
      destruct (beforeLast "]" t) as [inner|]; [reflexivity |].
      simpl. destruct (Re.search_from rawJsonRe (Some "["%char) t) as [[? ?]|];
        exact IH.
    + simpl. destruct (Re.search_from rawJsonRe (Some c) t) as [[? ?]|];
        exact IH.
Qed.

(** The extraction, for every text. *)
Lemma extractJson_spec (text : string) :
  extractJson text =
  match textToParse text with
  | Some content => Returned content
  | None => Threw (Exn PlainError nonJsonMessage)
  end.
Proof.
  unfold extractJson, textToParse, firstFenceContent, Re.search.
  rewrite search_fence, <- (search_raw text None).
  destruct (cut fence text) as [[before rest]|];
    [destruct (fenceContent rest) as [[|c g]|] |]; simpl;
    destruct (Re.search_from rawJsonRe None text) as [[? whole]|];
    reflexivity.
Qed.

End Extraction.

Section FreeText.

Import Js GeminiService.

Variable API_KEY : option string.
Variable generateContent :
  Request -> completion BackendFailure Genai.GenerateContentResponse.
Variable JSON_parse : string -> completion string json.

(** A lesson request with the search tool, once the reply has a text:
    the extraction decides what is parsed, or fails the call. *)
Lemma lesson_in_search_mode (context : Context) (req : Request)
    (response : Genai.GenerateContentResponse) (text : string) :
  truthy_opt API_KEY = true ->
  compileRequest context = Returned req ->
  useGoogleSearch req = true ->
  generateContent req = Returned response ->
  Genai.text response = Some text ->
  getTeachingSections API_KEY generateContent JSON_parse context =
  match extractJson text with
  | Returned content =>
      settle (parseAndClassify JSON_parse content (resolveSources response))
  | Threw error => Threw (rethrow error)
  end.
Proof.
  intros K C U G T. unfold getTeachingSections, generateLesson.
  rewrite K, C. simpl. rewrite G. simpl. rewrite U, T. simpl.
  destruct (extractJson text); reflexivity.
Qed.

End FreeText.

(** C4, as the code has it. In free-text mode, for a reply with a text,
    what is parsed is the content of the first fenced block of the text
    when there is one and it is not empty: what stands between the
    first fence and the next fence behind it, without the tag [json]
    right behind the opening fence and without the white space around
    it, whatever stands before and behind the block. Otherwise what is
    parsed is the widest span: from the first opening brace or bracket
    behind which a closing one of its kind occurs, to the last closing
    one of that kind. When there is neither, the call fails with the
    general failure of a generation, and fails alike whatever the parser
    is. [cut] splits a text at the first occurrence of a separator and
    [beforeLast] at the last occurrence of a code unit. *)
Theorem free_text_extraction :
  forall (API_KEY : option string)
    (generateContent :
       GeminiService.Request ->
       Js.completion GeminiService.BackendFailure Genai.GenerateContentResponse)
    (context : GeminiService.Context) (req : GeminiService.Request)
    (response : Genai.GenerateContentResponse) (text : string),
    Js.truthy_opt API_KEY = true ->
    GeminiService.compileRequest context = Js.Returned req ->
    GeminiService.useGoogleSearch req = true ->
    generateContent req = Js.Returned response ->
    Genai.text response = Some text ->
    (forall JSON_parse,
       GeminiService.getTeachingSections API_KEY generateContent JSON_parse
         context =
       match GeminiService.textToParse text with
       | Some content =>
           GeminiService.settle
             (GeminiService.parseAndClassify JSON_parse content
                (GeminiService.resolveSources response))
       | None =>
           Js.Threw (GeminiService.Exn GeminiService.PlainError
                       GeminiService.generationFailedMessage)
       end) /\
    (forall sep s a b,
       GeminiService.cut sep s = Some (a, b) <->
       s = a ++ sep ++ b /\
       forall a' b',
         s = a' ++ sep ++ b' -> String.length a <= String.length a') /\
    (forall ch s m,
       GeminiService.beforeLast ch s = Some m <->
       exists post, s = m ++ String ch post /\ Js.lacks ch post = true).
Proof.
  intros API_KEY generateContent context req response text K C U G T.
  split; [| split].
  - intros JSON_parse.
    rewrite (lesson_in_search_mode API_KEY generateContent JSON_parse
               context req response _ K C U G T).
    rewrite extractJson_spec.
    now destruct (GeminiService.textToParse text).
  - intros sep s a b. apply cut_first.
  - intros ch s m. apply beforeLast_spec.
Qed.

Lemma free_text_extraction_witness :
  GeminiService.getTeachingSections Sample.key
    (Sample.replying (Sample.textOnly "Here it is: ```json [1] ``` Bye."))
    (Sample.parsing "[1]"
       (GeminiService.JArray
          [GeminiService.JNumber (GeminiService.Num 1 1)]))
    Sample.urlAndSearch
  = Js.Returned ([GeminiService.JNumber (GeminiService.Num 1 1)], []).
Proof.
  assert (C : exists req,
             GeminiService.compileRequest Sample.urlAndSearch =
             Js.Returned req /\
             GeminiService.useGoogleSearch req = true)
    by (eexists; split; reflexivity).
  destruct C as (req & C & U).
  rewrite (proj1 (free_text_extraction Sample.key
                    (Sample.replying
                       (Sample.textOnly "Here it is: ```json [1] ``` Bye."))
                    Sample.urlAndSearch req
                    (Sample.textOnly "Here it is: ```json [1] ``` Bye.")
                    "Here it is: ```json [1] ``` Bye."
                    eq_refl C U eq_refl eq_refl)
             (Sample.parsing "[1]"
                (GeminiService.JArray
                   [GeminiService.JNumber (GeminiService.Num 1 1)]))).
  reflexivity.
Defined.

(** C4, as the specification words it, fails in four ways. In the reply
    "[1] and [2]" bracket matching finds the array "[1]", but the text
    handed to the parser is the whole reply, from the first opening
    bracket to the last closing one, and the call fails on it. In the
    reply "[ a { b } c" bracket matching finds nothing, the bracket is
    never closed, but the text handed to the parser is "{ b }". The
    reply "``` ```[1]" holds a fenced block, whose content is empty, but
    the text handed to the parser is "[1]", behind the block. On the
    reply "no json here" the call fails with the general failure of a
    generation, which is not the failure raised for a reply without
    JSON. *)
Lemma free_text_extraction_counterexample :
  (GeminiService.specFirstBalanced "[1] and [2]" = Some "[1]" /\
   GeminiService.jsonText true (Some "[1] and [2]") =
     Js.Returned "[1] and [2]" /\
   GeminiService.getTeachingSections Sample.key
     (Sample.replying (Sample.textOnly "[1] and [2]"))
     (Sample.parsing "[1]"
        (GeminiService.JArray
           [GeminiService.JNumber (GeminiService.Num 1 1)]))
     Sample.urlAndSearch
   = Js.Threw (GeminiService.Exn GeminiService.PlainError
                 GeminiService.malformedJsonMessage)) /\
  (GeminiService.specFirstBalanced "[ a { b } c" = None /\
   GeminiService.jsonText true (Some "[ a { b } c") = Js.Returned "{ b }") /\
  (GeminiService.firstFenceContent "``` ```[1]" = Some EmptyString /\
   GeminiService.jsonText true (Some "``` ```[1]") = Js.Returned "[1]" /\
   GeminiService.getTeachingSections Sample.key
     (Sample.replying (Sample.textOnly "``` ```[1]"))
     (Sample.parsing "[1]"
        (GeminiService.JArray
           [GeminiService.JNumber (GeminiService.Num 1 1)]))
     Sample.urlAndSearch
   = Js.Returned ([GeminiService.JNumber (GeminiService.Num 1 1)], [])) /\
  (GeminiService.jsonText true (Some "no json here") =
     Js.Threw (GeminiService.Exn GeminiService.PlainError
                 GeminiService.nonJsonMessage) /\
   GeminiService.getTeachingSections Sample.key
     (Sample.replying (Sample.textOnly "no json here"))
     (Sample.parsing "[1]"
        (GeminiService.JArray
           [GeminiService.JNumber (GeminiService.Num 1 1)]))
     Sample.urlAndSearch
   = Js.Threw (GeminiService.Exn GeminiService.PlainError
                 GeminiService.generationFailedMessage) /\
   GeminiService.generationFailedMessage <> GeminiService.nonJsonMessage).
Proof. vm_compute. repeat split; discriminate. Qed.
